(** * CadScene: bounding boxes, GPU record layout and scene lifecycle

    A shallow embedding of [cadscene.hpp] (class [CadScene]) and proofs of
    the properties its specification states.

    - [F32]     : IEEE-754 binary32, the C++ [float], on the Standard
                  Library's [spec_float] (precision 24, [emax] 128).
    - [nvmath]  : the parts of the nvmath header the class uses
                  ([vec4f], [mat4f], [nv_min], [nv_max], matrix * vector).
    - [Layout]  : [sizeof] of the structs, by the usual C++ layout rules.
    - [CadScene]: the class itself: [BBox], the records, the accessors,
                  and the load/unload lifecycle. *)

From Stdlib Require Import ZArith NArith List Bool Lia String Permutation.
From Stdlib Require Import Floats.SpecFloat.
Import ListNotations.

(* ================================================================== *)
(** * Part I: definitions *)
(* ================================================================== *)

(** ** binary32 floating point *)

Module F32.

Definition prec : Z := 24.
Definition emax : Z := 128.

(** A C++ [float].  Values the hardware can hold satisfy [valid]. *)
Definition float : Set := spec_float.

Definition valid (a : float) : bool := valid_binary prec emax a.

Definition add : float -> float -> float := SFadd prec emax.
Definition mul : float -> float -> float := SFmul prec emax.
Definition opp : float -> float := SFopp.

(** The comparison operators [<], [>], [<=], [==] of C++ on floats:
    every comparison with a NaN operand is false. *)
Definition ltb (a b : float) : bool := SFltb a b.
Definition gtb (a b : float) : bool :=
  match SFcompare a b with
  | Some Gt => true
  | _ => false
  end.
Definition leb (a b : float) : bool := SFleb a b.
Definition eqb (a b : float) : bool := SFeqb a b.

Definition is_nan (a : float) : bool :=
  match a with
  | S754_nan => true
  | _ => false
  end.

Definition is_zero (a : float) : bool :=
match a with
| S754_zero _ => true
| _ => false
end.

Definition is_finite (a : float) : bool :=
match a with
| S754_zero _ | S754_finite _ _ _ => true
| _ => false
end.

(** [FLT_MAX] of <cfloat>: the largest finite binary32,
    (2^24 - 1) * 2^104. *)
Definition FLT_MAX : float := SFmax_float prec emax.

Definition pinf : float := S754_infinity false.
Definition ninf : float := S754_infinity true.
Definition nan : float := S754_nan.
Definition zero : float := S754_zero false.
Definition nzero : float := S754_zero true.

(** The float nearest to an integer (a literal such as [1.0f]). *)
Definition of_Z (n : Z) : float := binary_normalize prec emax n 0 false.

Definition one : float := of_Z 1.

End F32.

(** ** nvmath

    [cadscene.hpp] includes <nvmath/nvmath.h>, a header of another
    library.  What the class uses of it (the vector and matrix types,
    [nv_min], [nv_max] and matrix * vector) is written out here as that
    header defines it; the specification describes [merge] as the
    componentwise min/max these two functions give. *)

Module nvmath.

Import F32.

(** [nvmath::vec4f], that is [vector4<float>]: four floats x, y, z, w. *)
Record vec4f : Set := mkvec4f { x : float; y : float; z : float; w : float }.

(** [vector4(const T& t)]: every component is [t]. *)
Definition vec4f_splat (t : float) : vec4f := mkvec4f t t t t.

(** [nvmath::vec3f]. *)
Record vec3f : Set := mkvec3f { x3 : float; y3 : float; z3 : float }.

(** [nvmath::mat4f], that is [matrix4<float>]; [aRC] is row R, column C. *)
Record mat4f : Set := mkmat4f {
  a00 : float; a10 : float; a20 : float; a30 : float;
  a01 : float; a11 : float; a21 : float; a31 : float;
  a02 : float; a12 : float; a22 : float; a32 : float;
  a03 : float; a13 : float; a23 : float; a33 : float
}.

(** Scalar [nv_min(a, b)] is [(a < b) ? a : b] and [nv_max(a, b)] is
    [(a > b) ? a : b]. *)
Definition nv_min_scalar (a b : float) : float := if ltb a b then a else b.
Definition nv_max_scalar (a b : float) : float := if gtb a b then a else b.

(** [nv_min] and [nv_max] on [vector4<T>] work component by component. *)
Definition nv_min (a b : vec4f) : vec4f :=
  mkvec4f (nv_min_scalar (x a) (x b)) (nv_min_scalar (y a) (y b))
          (nv_min_scalar (z a) (z b)) (nv_min_scalar (w a) (w b)).
Definition nv_max (a b : vec4f) : vec4f :=
  mkvec4f (nv_max_scalar (x a) (x b)) (nv_max_scalar (y a) (y b))
          (nv_max_scalar (z a) (z b)) (nv_max_scalar (w a) (w b)).

(** [operator*(const matrix4<T>&, const vector4<T>&)]: each row is
    summed from left to right. *)
Definition row (m0 m1 m2 m3 : float) (v : vec4f) : float :=
  add (add (add (mul m0 (x v)) (mul m1 (y v))) (mul m2 (z v))) (mul m3 (w v)).
Definition mat_mul (m : mat4f) (v : vec4f) : vec4f :=
  mkvec4f (row (a00 m) (a01 m) (a02 m) (a03 m) v)
          (row (a10 m) (a11 m) (a12 m) (a13 m) v)
          (row (a20 m) (a21 m) (a22 m) (a23 m) v)
          (row (a30 m) (a31 m) (a32 m) (a33 m) v).

Definition mat_identity : mat4f :=
  mkmat4f one zero zero zero
          zero one zero zero
          zero zero one zero
          zero zero zero one.

(** Componentwise predicates used to state properties. *)
Definition vec_all2 (r : float -> float -> bool) (a b : vec4f) : bool :=
  r (x a) (x b) && r (y a) (y b) && r (z a) (z b) && r (w a) (w b).
Definition vec_leb : vec4f -> vec4f -> bool := vec_all2 leb.
Definition vec_eqb : vec4f -> vec4f -> bool := vec_all2 eqb.
Definition vec_nan_free (a : vec4f) : bool :=
  negb (is_nan (x a)) && negb (is_nan (y a)) &&
  negb (is_nan (z a)) && negb (is_nan (w a)).

(** A vector of finite floats a machine can hold: no NaN, no infinity. *)
Definition finite (a : float) : bool := F32.valid a && is_finite a.
Definition vec_finite (a : vec4f) : bool :=
  finite (x a) && finite (y a) && finite (z a) && finite (w a).

End nvmath.

(** ** C++ object layout

    [sizeof] and [alignof] for the types that occur in [cadscene.hpp], by
    the layout rules every supported compiler follows: a member is placed
    at the next multiple of its alignment, a struct is as aligned as its
    most aligned member and its size is rounded up to that alignment.
    The scalar sizes are those of the platforms the sample builds for:
    [float], [uint32_t], [int32_t] and [int] take 4 bytes,
    [unsigned short] 2, [size_t] and pointers 8, [bool] 1. *)

Module Layout.

Inductive ctype : Set :=
| TFloat | TUShort | TUint32 | TInt32 | TInt | TSizeT | TPtr | TBool
| TArray (n : N) (elt : ctype)
| TStruct (members : list ctype).

Fixpoint alignof (t : ctype) : N :=
  match t with
  | TFloat | TUint32 | TInt32 | TInt => 4
  | TUShort => 2
  | TSizeT | TPtr => 8
  | TBool => 1
  | TArray _ elt => alignof elt
  | TStruct members =>
      (fix widest (ms : list ctype) : N :=
         match ms with
         | [] => 1
         | m :: ms' => N.max (alignof m) (widest ms')
         end) members
  end%N.

Definition align_up (offset a : N) : N := (((offset + a - 1) / a) * a)%N.

Fixpoint sizeof (t : ctype) : N :=
  match t with
  | TFloat | TUint32 | TInt32 | TInt => 4
  | TUShort => 2
  | TSizeT | TPtr => 8
  | TBool => 1
  | TArray n elt => n * sizeof elt
  | TStruct [] => 1
  | TStruct members =>
      align_up
        ((fix place (ms : list ctype) (offset : N) : N :=
            match ms with
            | [] => offset
            | m :: ms' => place ms' (align_up offset (alignof m) + sizeof m)
            end) members 0)
        (alignof (TStruct members))
  end%N.

(** [typedef unsigned short half;] *)
Definition half : ctype := TUShort.

(** nvmath's vectors and matrices are plain aggregates of floats. *)
Definition vec3f : ctype := TStruct [TFloat; TFloat; TFloat].
Definition vec4f : ctype := TStruct [TFloat; TFloat; TFloat; TFloat].
Definition mat4f : ctype := TStruct (repeat TFloat 16).

Definition BBox : ctype := TStruct [vec4f; vec4f].
Definition MaterialSide : ctype := TStruct [vec4f; vec4f; vec4f; vec4f].
Definition Material : ctype :=
  TStruct [TArray 2 MaterialSide; TArray (8 * 4) TUint32].
Definition MatrixNode : ctype :=
  TStruct [mat4f; mat4f; mat4f; vec4f; vec4f; vec3f; TFloat; vec4f].
Definition Vertex : ctype := TStruct [vec4f].
Definition VertexAttributes : ctype := TStruct [vec4f].
Definition VertexFP16 : ctype := TStruct [TArray 4 half].
Definition VertexAttributesFP16 : ctype := TStruct [TArray 4 half].
Definition DrawIndirectElements : ctype :=
  TStruct [TUint32; TUint32; TUint32; TInt32; TUint32].

(** The granularity of a uniform-buffer range the two padded records
    are kept at (the comment above them in the header). *)
Definition UBO_RANGE : N := 256.

(** [sizeof] applied to an object is [sizeof] of its type. *)
Class Sized (A : Type) : Set := { ctype_of : ctype }.
Arguments ctype_of A {_}.
Definition sizeof_obj {A : Type} `{Sized A} (_ : A) : N := sizeof (ctype_of A).

(** [offsetof]: where the members of a struct start, by the same rule
    [sizeof] places them with. *)
Fixpoint offsets_from (members : list ctype) (offset : N) : list N :=
  match members with
  | [] => []
  | m :: ms' =>
      align_up offset (alignof m)
      :: offsets_from ms' (align_up offset (alignof m) + sizeof m)%N
  end.

Definition offsets (t : ctype) : list N :=
  match t with
  | TStruct members => offsets_from members 0
  | _ => []
  end.

(** A struct is packed when the compiler inserts no padding: every
    member starts where the one before it ends, and the struct ends with
    its last member. *)
Fixpoint running_sums (sizes : list N) (offset : N) : list N :=
  match sizes with
  | [] => []
  | n :: rest => offset :: running_sums rest (offset + n)%N
  end.

Definition packed (t : ctype) : bool :=
  match t with
  | TStruct members =>
      (sizeof t =? fold_right N.add 0 (map sizeof members))%N
      && forallb (fun p => (fst p =? snd p)%N)
           (combine (offsets t) (running_sums (map sizeof members) 0))
  | _ => true
  end.

End Layout.

(** ** class CadScene *)

Module CadScene.

Import F32 nvmath.

(** *** struct BBox *)

Record BBox : Set := mkBBox { min : vec4f; max : vec4f }.

(** [BBox() : min(FLT_MAX), max(-FLT_MAX)] *)
Definition BBox_new : BBox :=
  mkBBox (vec4f_splat FLT_MAX) (vec4f_splat (opp FLT_MAX)).

(** [void merge(const nvmath::vec4f& point)] *)
Definition merge_point (b : BBox) (point : vec4f) : BBox :=
  mkBBox (nv_min (min b) point) (nv_max (max b) point).

(** [void merge(const BBox& bbox)] *)
Definition merge (b bbox : BBox) : BBox :=
  mkBBox (nv_min (min b) (min bbox)) (nv_max (max b) (max bbox)).

(** The local array [box[16]] of [transformed], in index order. *)
Definition corners (b : BBox) : list vec4f :=
  let mn := min b in
  let mx := max b in
  [ mkvec4f (x mn) (y mn) (z mn) (w mn);
    mkvec4f (x mx) (y mn) (z mn) (w mn);
    mkvec4f (x mn) (y mx) (z mn) (w mn);
    mkvec4f (x mx) (y mx) (z mn) (w mn);
    mkvec4f (x mn) (y mn) (z mx) (w mn);
    mkvec4f (x mx) (y mn) (z mx) (w mn);
    mkvec4f (x mn) (y mx) (z mx) (w mn);
    mkvec4f (x mx) (y mx) (z mx) (w mn);

    mkvec4f (x mn) (y mn) (z mn) (w mx);
    mkvec4f (x mx) (y mn) (z mn) (w mx);
    mkvec4f (x mn) (y mx) (z mn) (w mx);
    mkvec4f (x mx) (y mx) (z mn) (w mx);
    mkvec4f (x mn) (y mn) (z mx) (w mx);
    mkvec4f (x mx) (y mn) (z mx) (w mx);
    mkvec4f (x mn) (y mx) (z mx) (w mx);
    mkvec4f (x mx) (y mx) (z mx) (w mx) ].

(** The corner of a box that takes its x, y, z and w from [max] where
the flag is set and from [min] where it is not; [box[i]] is the corner
whose flags are the four low bits of [i]. *)
Definition corner (b : BBox) (hx hy hz hw : bool) : vec4f :=
  mkvec4f (x (if hx then max b else min b)) (y (if hy then max b else min b))
          (z (if hz then max b else min b)) (w (if hw then max b else min b)).

(** The loop [for(i = 0; i < (1 << dim); i++)] with [n] iterations left:
    each one transforms [box[i]] and merges it into [bbox].  Reading
    past the end of [box] has no defined result. *)
Fixpoint transformed_loop (matrix : mat4f) (box : list vec4f)
         (n i : nat) (bbox : BBox) : option BBox :=
  match n with
  | O => Some bbox
  | S n' =>
      match nth_error box i with
      | Some corner =>
          let point := mat_mul matrix corner in
          transformed_loop matrix box n' (S i) (merge_point bbox point)
      | None => None
      end
  end.

(** [BBox transformed(const nvmath::mat4f& matrix, int dim = 3) const].
    The shift [1 << dim] is defined for [0 <= dim < 31]; for [dim > 4]
    the loop leaves the 16-element array, so those calls have no
    result either. *)
Definition transformed (b : BBox) (matrix : mat4f) (dim : Z) : option BBox :=
  if ((0 <=? dim) && (dim <=? 4))%Z
  then transformed_loop matrix (corners b)
                        (Z.to_nat (Z.shiftl 1 dim)) 0 BBox_new
  else None.

(** Predicates on boxes used to state properties: a box contains a
    point when the point lies between [min] and [max] in every
    component, and is valid when [min <= max] in every component. *)
Definition contains (b : BBox) (p : vec4f) : bool :=
  vec_leb (min b) p && vec_leb p (max b).
Definition valid (b : BBox) : bool := vec_leb (min b) (max b).
Definition nan_free (b : BBox) : bool :=
  vec_nan_free (min b) && vec_nan_free (max b).
(** Equality of boxes as [==] on floats sees it (+0 and -0 are equal). *)
Definition box_eqb (a b : BBox) : bool :=
  vec_eqb (min a) (min b) && vec_eqb (max a) (max b).

(** *** The plain records *)

Record MaterialSide : Set := mkMaterialSide {
  ambient : vec4f; diffuse : vec4f; specular : vec4f; emissive : vec4f
}.

(** [sides[2]] as a pair, [_pad[8 * 4]] as a list of 32 words. *)
Record Material : Set := mkMaterial {
  sides : MaterialSide * MaterialSide;
  _pad : list Z
}.

(** [Material()]: [memset] to zero; the all-zero word is the float +0. *)
Definition Material_new : Material :=
  let v0 := vec4f_splat zero in
  let s0 := mkMaterialSide v0 v0 v0 v0 in
  mkMaterial (s0, s0) (repeat 0%Z 32).

Record MatrixNode : Set := mkMatrixNode {
  worldMatrix : mat4f;
  worldMatrixIT : mat4f;
  objectMatrix : mat4f;
  bboxMin : vec4f;
  bboxMax : vec4f;
  _pad0 : vec3f;
  winding : float;
  color : vec4f
}.

Record DrawIndirectElements : Set := mkDrawIndirectElements {
  count : Z;
  primCount : Z;
  firstIndex : Z;
  baseVertex : Z;
  baseInstance : Z
}.

(** [DrawIndirectElements() : count(0), primCount(1), firstIndex(0),
    baseVertex(0), baseInstance(0)] *)
Definition DrawIndirectElements_new : DrawIndirectElements :=
  mkDrawIndirectElements 0 1 0 0 0.

#[export] Instance Material_sized : Layout.Sized Material :=
  {| Layout.ctype_of := Layout.Material |}.
#[export] Instance MatrixNode_sized : Layout.Sized MatrixNode :=
  {| Layout.ctype_of := Layout.MatrixNode |}.

(** A [void*] to a block of [malloc], or [nullptr]. *)
Definition ptr : Set := option nat.
Definition nullptr : ptr := None.

Module DrawRange.
Record t : Set := mk { offset : N; count : Z }.
(** [DrawRange() : offset(0), count(0)] *)
Definition new : t := mk 0 0.
End DrawRange.

Module MeshletRange.
Record t : Set := mk { offset : N; count : N }.
End MeshletRange.

Module GeometryPart.
Record t : Set := mk { indexSolid : DrawRange.t; meshSolid : MeshletRange.t }.
End GeometryPart.

Module MeshletTopology.
Record t : Set := mk {
  primSize : N;
  descSize : N;
  numMeshlets : Z;
  primData : ptr;
  descData : ptr
}.
End MeshletTopology.

Module Geometry.
Record t : Set := mk {
  partOffset : Z;
  useShorts : Z;
  partBboxOffset : Z;
  vboSize : N;
  aboSize : N;
  iboSize : N;
  meshSize : N;
  meshIndicesSize : N;
  meshlet : MeshletTopology.t;
  parts : list GeometryPart.t;
  numVertices : Z;
  numIndexSolid : Z;
  vboData : ptr;
  aboData : ptr;
  iboData : ptr
}.
End Geometry.

Module ObjectPart.
Record t : Set := mk { active : Z; materialIndex : Z; matrixIndex : Z }.
End ObjectPart.

Module Object.
Record t : Set := mk {
  partOffset : Z;
  matrixIndex : Z;
  geometryIndex : Z;
  faceCCW : Z;
  parts : list ObjectPart.t
}.
End Object.

(** [MeshletBuilderType] is declared in [config.h]; the header names
    one of its values, the others are told apart by their number. *)
Inductive MeshletBuilderType : Set :=
| MESHLET_BUILDER_PACKBASIC
| MESHLET_BUILDER_other (tag : N).

Record LoadConfig : Set := mkLoadConfig {
  scale : float;
  verbose : bool;
  fp16 : bool;
  allowShorts : bool;
  colorizeExtra : bool;
  extraAttributes : N;
  meshVertexCount : N;
  meshPrimitiveCount : N;
  meshBuilder : MeshletBuilderType
}.

(** The default member initialisers of [LoadConfig]. *)
Definition LoadConfig_new : LoadConfig :=
  mkLoadConfig one true false true false 0 64 126 MESHLET_BUILDER_PACKBASIC.

(** *** The scene *)

Record t : Set := mk {
  m_materials : list Material;
  m_bboxes : list BBox;
  m_geometry : list Geometry.t;
  m_matrices : list MatrixNode;
  m_objects : list Object.t;
  m_vboSize : N;
  m_iboSize : N;
  m_meshSize : N;
  m_numGeometryParts : N;
  m_numObjectParts : N;
  m_cfg : LoadConfig;
  m_bbox : BBox;
  m_bboxInstanced : BBox;
  m_numOrigGeometries : N;
  m_numOrigMatrices : N;
  m_numOrigObjects : N
}.

(** A freshly constructed scene.  The three [m_numOrig...] members have
    no initialiser in the class, so their first values are whatever the
    storage held: they are arguments here. *)
Definition new (origGeometries origMatrices origObjects : N) : t :=
  mk [] [] [] [] [] 0 0 0 0 0 LoadConfig_new BBox_new BBox_new
     origGeometries origMatrices origObjects.

(** [size_t getVertexSize() const] *)
Definition getVertexSize (s : t) : N :=
  if fp16 (m_cfg s)
  then Layout.sizeof Layout.VertexFP16
  else Layout.sizeof Layout.Vertex.

(** [size_t getVertexAttributeSize() const]; the arithmetic is that of
    [size_t], modulo 2^64. *)
Definition getVertexAttributeSize (s : t) : N :=
  (if fp16 (m_cfg s)
   then Layout.sizeof Layout.VertexAttributesFP16
        + Layout.sizeof Layout.half * 4 * extraAttributes (m_cfg s)
   else Layout.sizeof Layout.VertexAttributes
        + Layout.sizeof Layout.TFloat * 4 * extraAttributes (m_cfg s))
  mod 2 ^ 64.

(** [void* getVertex(void* data, size_t index) const]: a pointer is the
    address of a byte, 64 bits wide; the product is that of [size_t]. *)
Definition getVertex (s : t) (data index : N) : N :=
  (data + (getVertexSize s * index) mod 2 ^ 64) mod 2 ^ 64.

(** [void* getVertexAttribute(void* data, size_t index) const] *)
Definition getVertexAttribute (s : t) (data index : N) : N :=
  (data + (getVertexAttributeSize s * index) mod 2 ^ 64) mod 2 ^ 64.

(** *** The heap behind [malloc] and [free]

A heap has a number of bytes left to hand out, and remembers the live
blocks with their sizes.  [malloc] fails when the request is larger
than what is left. *)

Module Heap.
Record t : Set := mk { available : N; next : nat; live : list (nat * N) }.

Definition malloc (h : t) (size : N) : option (nat * t) :=
  if (size <=? available h)%N
  then Some (next h, mk (available h - size) (S (next h)) ((next h, size) :: live h))
  else None.

Fixpoint size_of (blocks : list (nat * N)) (b : nat) : option N :=
  match blocks with
  | [] => None
  | (b', n) :: rest => if Nat.eqb b' b then Some n else size_of rest b
  end.

Fixpoint remove (blocks : list (nat * N)) (b : nat) : list (nat * N) :=
  match blocks with
  | [] => []
  | (b', n) :: rest => if Nat.eqb b' b then rest else (b', n) :: remove rest b
  end.

(** [free] of a live block gives its bytes back. *)
Definition free (h : t) (b : nat) : t :=
  match size_of (live h) b with
  | Some n => mk (available h + n) (next h) (remove (live h) b)
  | None => h
  end.

(** [if(p) { free(p); }] *)
Definition free_if (p : ptr) (h : t) : t :=
  match p with
  | Some b => free h b
  | None => h
  end.

(** A heap is well formed when its live blocks have different names, all
    handed out already. *)
Definition wf (h : t) : Prop :=
  NoDup (map fst (live h)) /\ Forall (fun b => b < next h) (map fst (live h)).
End Heap.

(** [~MeshletTopology()] *)
Definition MeshletTopology_destroy (m : MeshletTopology.t) (h : Heap.t) : Heap.t :=
  Heap.free_if (MeshletTopology.descData m)
    (Heap.free_if (MeshletTopology.primData m) h).

(** [~Geometry()]: the body, then the destructor of the member
    [meshlet]. *)
Definition Geometry_destroy (g : Geometry.t) (h : Heap.t) : Heap.t :=
  MeshletTopology_destroy (Geometry.meshlet g)
    (Heap.free_if (Geometry.iboData g)
       (Heap.free_if (Geometry.aboData g)
          (Heap.free_if (Geometry.vboData g) h))).

(** The blocks a geometry owns, in the order its destructor frees them. *)
Definition ptr_blocks (p : ptr) : list nat :=
  match p with
  | Some b => [b]
  | None => []
  end.

Definition geometry_blocks (g : Geometry.t) : list nat :=
  ptr_blocks (Geometry.vboData g) ++ ptr_blocks (Geometry.aboData g)
  ++ ptr_blocks (Geometry.iboData g)
  ++ ptr_blocks (MeshletTopology.primData (Geometry.meshlet g))
  ++ ptr_blocks (MeshletTopology.descData (Geometry.meshlet g)).

(** *** The scene description a load reads

The CSF reader and [cadscene.cpp], which holds [CadScene::loadCSF] and
[CadScene::unload], are not part of the header.  The specification asks
of the source that it yield, per geometry, a vertex array, an index
array and a part partition, and per object a transform, material
references and a part-activation list.  Opening or parsing the source
may fail. *)

Module CSF.
(** Modelled from the spec: a geometry of the source (section 6): its
    vertex array, its index array and its partition into parts, as the
    number of indices of each part. *)
Record Geometry : Set := mkGeometry {
  vertex : list vec4f;
  indexSolid : list N;
  part_counts : list N
}.

(** Modelled from the spec: one entry of an object's part-activation
    list (section 6), with the material and matrix it refers to. *)
Record NodePart : Set := mkNodePart {
  active : bool;
  materialIDX : N;
  nodeIDX : N
}.

(** Modelled from the spec: a node of the source (section 6): a
    transform, and for an object its geometry and part list; a node
    without a geometry is a transform only. *)
Record Node : Set := mkNode {
  objectTM : mat4f;
  worldTM : mat4f;
  geometryIDX : option N;
  node_parts : list NodePart
}.

(** Modelled from the spec: what a parsed source yields (section 6). *)
Record File : Set := mkFile {
  materials : list (MaterialSide * MaterialSide);
  geometries : list Geometry;
  nodes : list Node
}.

(** Modelled from the spec: the outcome of opening and parsing a source
    (section 7). *)
Inductive Source : Set :=
| Unreadable
| Malformed
| Parsed (file : File).
End CSF.

(** Modelled from the spec: what the meshlet builder (section 4.2) hands
    back for one geometry when it succeeds: the two buffer sizes, the meshlet count, the byte sizes
    the scene totals are made of, and one meshlet range per part. *)
Record MeshletBuild : Set := mkMeshletBuild {
  built_primSize : N;
  built_descSize : N;
  built_numMeshlets : Z;
  built_meshSize : N;
  built_meshIndicesSize : N;
  built_ranges : list MeshletRange.t
}.

(** Modelled from the spec: the collaborators of a load and the policies
    the specification leaves open.  [read_csf] is the CSF reader;
    [build_meshlets] the meshlet builder ([None]: it failed or is
    disabled); [inverse_transpose] and [keeps_winding] are matrix
    functions of nvmath; [instance_color] colours the n-th node;
    [auto_axis] picks the clone axis from the scene box when
    [cloneaxis = 3]; [clone_world] is the world matrix of clone [c] of a
    node, moved along the axis far enough not to overlap. *)
Record External : Type := mkExternal {
  read_csf : string -> CSF.Source;
  build_meshlets : LoadConfig -> CSF.Geometry -> option MeshletBuild;
  inverse_transpose : mat4f -> mat4f;
  keeps_winding : mat4f -> bool;
  instance_color : LoadConfig -> nat -> vec4f;
  auto_axis : BBox -> Z;
  clone_world : BBox -> Z -> nat -> mat4f -> mat4f
}.

(** Modelled from the spec: the failures of a load (section 7). *)
Inductive LoadError : Set :=
| SourceUnreadable
| SourceMalformed
| IndexOverflow
| AllocationFailure.

(** Modelled from the spec: the state [loadCSF] and [unload] work on,
    the scene and the heap its buffers live in (section 5: buffers are
    owned by the scene alone). *)
Definition World : Set := (t * Heap.t)%type.

(** *** A state-and-error monad for the steps of a load *)

Definition Load (A : Type) : Type := World -> (LoadError + A) * World.

Definition ret {A : Type} (a : A) : Load A := fun w => (inr a, w).

Definition bind {A B : Type} (c : Load A) (k : A -> Load B) : Load B :=
  fun w =>
    match c w with
    | (inl e, w') => (inl e, w')
    | (inr a, w') => k a w'
    end.

Definition fail {A : Type} (e : LoadError) : Load A := fun w => (inl e, w).

Definition guard (e : LoadError) (ok : bool) : Load unit :=
  if ok then ret tt else fail e.

Definition get_scene : Load t := fun w => (inr (fst w), w).

Definition modify_scene (f : t -> t) : Load unit :=
  fun w => (inr tt, (f (fst w), snd w)).

(** [malloc(size)], failing the load when the heap cannot serve it. *)
Definition malloc (size : N) : Load ptr :=
  fun w =>
    match Heap.malloc (snd w) size with
    | Some (b, h) => (inr (Some b), (fst w, h))
    | None => (inl AllocationFailure, w)
    end.

Declare Scope load_scope.
Delimit Scope load_scope with load.
Notation "x <- c ;; k" := (bind c (fun x => k))
  (at level 61, c at next level, right associativity) : load_scope.
Notation "c ;; k" := (bind c (fun _ => k))
  (at level 61, right associativity) : load_scope.

Fixpoint for_each {A : Type} (f : A -> Load unit) (l : list A) : Load unit :=
  match l with
  | [] => ret tt
  | a :: l' => (f a ;; for_each f l')%load
  end.

(** *** Field updates

Each function below changes the fields its name says and keeps the
others. *)

Fixpoint update_last {A : Type} (f : A -> A) (l : list A) : list A :=
  match l with
  | [] => []
  | [a] => [f a]
  | a :: l' => a :: update_last f l'
  end.

Definition meshlet_set_primData (p : ptr) (m : MeshletTopology.t)
  : MeshletTopology.t :=
  MeshletTopology.mk (MeshletTopology.primSize m) (MeshletTopology.descSize m)
                     (MeshletTopology.numMeshlets m) p (MeshletTopology.descData m).

Definition meshlet_set_descData (p : ptr) (m : MeshletTopology.t)
  : MeshletTopology.t :=
  MeshletTopology.mk (MeshletTopology.primSize m) (MeshletTopology.descSize m)
                     (MeshletTopology.numMeshlets m) (MeshletTopology.primData m) p.

Definition object_parts (os : list Object.t) : N :=
  fold_right (fun o n => (N.of_nat (List.length (Object.parts o)) + n)%N) 0%N os.

(** [vboData = p] *)
Definition set_vboData (p : ptr) (g : Geometry.t) : Geometry.t :=
  Geometry.mk (Geometry.partOffset g) (Geometry.useShorts g)
              (Geometry.partBboxOffset g) (Geometry.vboSize g)
              (Geometry.aboSize g) (Geometry.iboSize g)
              (Geometry.meshSize g) (Geometry.meshIndicesSize g)
              (Geometry.meshlet g) (Geometry.parts g)
              (Geometry.numVertices g) (Geometry.numIndexSolid g) p
              (Geometry.aboData g) (Geometry.iboData g).

(** [aboData = p] *)
Definition set_aboData (p : ptr) (g : Geometry.t) : Geometry.t :=
  Geometry.mk (Geometry.partOffset g) (Geometry.useShorts g)
              (Geometry.partBboxOffset g) (Geometry.vboSize g)
              (Geometry.aboSize g) (Geometry.iboSize g)
              (Geometry.meshSize g) (Geometry.meshIndicesSize g)
              (Geometry.meshlet g) (Geometry.parts g)
              (Geometry.numVertices g) (Geometry.numIndexSolid g)
              (Geometry.vboData g) p (Geometry.iboData g).

(** [iboData = p] *)
Definition set_iboData (p : ptr) (g : Geometry.t) : Geometry.t :=
  Geometry.mk (Geometry.partOffset g) (Geometry.useShorts g)
              (Geometry.partBboxOffset g) (Geometry.vboSize g)
              (Geometry.aboSize g) (Geometry.iboSize g)
              (Geometry.meshSize g) (Geometry.meshIndicesSize g)
              (Geometry.meshlet g) (Geometry.parts g)
              (Geometry.numVertices g) (Geometry.numIndexSolid g)
              (Geometry.vboData g) (Geometry.aboData g) p.

(** [meshlet.primData = p] *)
Definition set_primData (p : ptr) (g : Geometry.t) : Geometry.t :=
  Geometry.mk (Geometry.partOffset g) (Geometry.useShorts g)
              (Geometry.partBboxOffset g) (Geometry.vboSize g)
              (Geometry.aboSize g) (Geometry.iboSize g)
              (Geometry.meshSize g) (Geometry.meshIndicesSize g)
              (meshlet_set_primData p (Geometry.meshlet g))
              (Geometry.parts g) (Geometry.numVertices g)
              (Geometry.numIndexSolid g) (Geometry.vboData g)
              (Geometry.aboData g) (Geometry.iboData g).

(** [meshlet.descData = p] *)
Definition set_descData (p : ptr) (g : Geometry.t) : Geometry.t :=
  Geometry.mk (Geometry.partOffset g) (Geometry.useShorts g)
              (Geometry.partBboxOffset g) (Geometry.vboSize g)
              (Geometry.aboSize g) (Geometry.iboSize g)
              (Geometry.meshSize g) (Geometry.meshIndicesSize g)
              (meshlet_set_descData p (Geometry.meshlet g))
              (Geometry.parts g) (Geometry.numVertices g)
              (Geometry.numIndexSolid g) (Geometry.vboData g)
              (Geometry.aboData g) (Geometry.iboData g).

(** The meshlet topology, its two sizes and the part table with its
    meshlet ranges. *)
Definition set_meshlet (m : MeshletTopology.t) (size indicesSize : N)
  (ps : list GeometryPart.t) (g : Geometry.t) : Geometry.t :=
  Geometry.mk (Geometry.partOffset g) (Geometry.useShorts g)
              (Geometry.partBboxOffset g) (Geometry.vboSize g)
              (Geometry.aboSize g) (Geometry.iboSize g) size indicesSize m
              ps (Geometry.numVertices g) (Geometry.numIndexSolid g)
              (Geometry.vboData g) (Geometry.aboData g) (Geometry.iboData g).

(** [m_cfg = cfg] *)
Definition set_cfg (cfg : LoadConfig) (s : t) : t :=
  mk (m_materials s) (m_bboxes s) (m_geometry s) (m_matrices s)
     (m_objects s) (m_vboSize s) (m_iboSize s) (m_meshSize s)
     (m_numGeometryParts s) (m_numObjectParts s) cfg (m_bbox s)
     (m_bboxInstanced s) (m_numOrigGeometries s) (m_numOrigMatrices s)
     (m_numOrigObjects s).

(** Appends to [m_materials]. *)
Definition set_materials (ms : list Material) (s : t) : t :=
  mk (m_materials s ++ ms) (m_bboxes s) (m_geometry s) (m_matrices s)
     (m_objects s) (m_vboSize s) (m_iboSize s) (m_meshSize s)
     (m_numGeometryParts s) (m_numObjectParts s) (m_cfg s) (m_bbox s)
     (m_bboxInstanced s) (m_numOrigGeometries s) (m_numOrigMatrices s)
     (m_numOrigObjects s).

(** [m_geometry.push_back(g)] *)
Definition push_geometry (g : Geometry.t) (s : t) : t :=
  mk (m_materials s) (m_bboxes s) (m_geometry s ++ [g]) (m_matrices s)
     (m_objects s) (m_vboSize s) (m_iboSize s) (m_meshSize s)
     (m_numGeometryParts s) (m_numObjectParts s) (m_cfg s) (m_bbox s)
     (m_bboxInstanced s) (m_numOrigGeometries s) (m_numOrigMatrices s)
     (m_numOrigObjects s).

(** [f] applied to [m_geometry.back()]. *)
Definition update_last_geometry (f : Geometry.t -> Geometry.t) (s : t) : t :=
  mk (m_materials s) (m_bboxes s) (update_last f (m_geometry s))
     (m_matrices s) (m_objects s) (m_vboSize s) (m_iboSize s) (m_meshSize s)
     (m_numGeometryParts s) (m_numObjectParts s) (m_cfg s) (m_bbox s)
     (m_bboxInstanced s) (m_numOrigGeometries s) (m_numOrigMatrices s)
     (m_numOrigObjects s).

(** The part boxes of a finished geometry join [m_bboxes] and its sizes
    the running totals. *)
Definition commit_geometry (vbo ibo mesh nparts : N) (boxes : list BBox) (s : t) : t :=
  mk (m_materials s) (m_bboxes s ++ boxes) (m_geometry s) (m_matrices s)
     (m_objects s) (m_vboSize s + vbo) (m_iboSize s + ibo)
     (m_meshSize s + mesh) (m_numGeometryParts s + nparts)
     (m_numObjectParts s) (m_cfg s) (m_bbox s) (m_bboxInstanced s)
     (m_numOrigGeometries s) (m_numOrigMatrices s) (m_numOrigObjects s).

(** [m_matrices.push_back(m)] *)
Definition push_matrix (m : MatrixNode) (s : t) : t :=
  mk (m_materials s) (m_bboxes s) (m_geometry s) (m_matrices s ++ [m])
     (m_objects s) (m_vboSize s) (m_iboSize s) (m_meshSize s)
     (m_numGeometryParts s) (m_numObjectParts s) (m_cfg s) (m_bbox s)
     (m_bboxInstanced s) (m_numOrigGeometries s) (m_numOrigMatrices s)
     (m_numOrigObjects s).

(** [m_objects.push_back(o)], counting its parts. *)
Definition push_object (o : Object.t) (s : t) : t :=
  mk (m_materials s) (m_bboxes s) (m_geometry s) (m_matrices s)
     (m_objects s ++ [o]) (m_vboSize s) (m_iboSize s) (m_meshSize s)
     (m_numGeometryParts s)
     (m_numObjectParts s + N.of_nat (List.length (Object.parts o)))
     (m_cfg s) (m_bbox s) (m_bboxInstanced s) (m_numOrigGeometries s)
     (m_numOrigMatrices s) (m_numOrigObjects s).

(** [m_bbox = b] *)
Definition set_bbox (b : BBox) (s : t) : t :=
  mk (m_materials s) (m_bboxes s) (m_geometry s) (m_matrices s)
     (m_objects s) (m_vboSize s) (m_iboSize s) (m_meshSize s)
     (m_numGeometryParts s) (m_numObjectParts s) (m_cfg s) b
     (m_bboxInstanced s) (m_numOrigGeometries s) (m_numOrigMatrices s)
     (m_numOrigObjects s).

(** [m_bboxInstanced = b] *)
Definition set_bboxInstanced (b : BBox) (s : t) : t :=
  mk (m_materials s) (m_bboxes s) (m_geometry s) (m_matrices s)
     (m_objects s) (m_vboSize s) (m_iboSize s) (m_meshSize s)
     (m_numGeometryParts s) (m_numObjectParts s) (m_cfg s) (m_bbox s) b
     (m_numOrigGeometries s) (m_numOrigMatrices s) (m_numOrigObjects s).

(** The pre-clone counts. *)
Definition record_orig_counts (s : t) : t :=
  mk (m_materials s) (m_bboxes s) (m_geometry s) (m_matrices s)
     (m_objects s) (m_vboSize s) (m_iboSize s) (m_meshSize s)
     (m_numGeometryParts s) (m_numObjectParts s) (m_cfg s) (m_bbox s)
     (m_bboxInstanced s) (N.of_nat (List.length (m_geometry s)))
     (N.of_nat (List.length (m_matrices s)))
     (N.of_nat (List.length (m_objects s))).

(** One more copy of the matrices and objects. *)
Definition push_clone (ms : list MatrixNode) (os : list Object.t) (s : t) : t :=
  mk (m_materials s) (m_bboxes s) (m_geometry s) (m_matrices s ++ ms)
     (m_objects s ++ os) (m_vboSize s) (m_iboSize s) (m_meshSize s)
     (m_numGeometryParts s) (m_numObjectParts s + object_parts os) (m_cfg s)
     (m_bbox s) (m_bboxInstanced s) (m_numOrigGeometries s)
     (m_numOrigMatrices s) (m_numOrigObjects s).

(** *** Building the scene

The steps of [CadScene::loadCSF], whose body is in [cadscene.cpp], after
sections 4.2 and 4.3 of the specification. *)

(** [UINT32_MAX] of <cstdint>: the largest index a 32-bit index buffer
    can hold. *)
Definition UINT32_MAX : N := 4294967295.

(** Modelled from the spec: [cfg.scale], the uniform geometry scale
    factor (section 3), applied to a vertex position. *)
Definition scale_position (cfg : LoadConfig) (v : vec4f) : vec4f :=
  mkvec4f (mul (x v) (scale cfg)) (mul (y v) (scale cfg))
          (mul (z v) (scale cfg)) (w v).

(** Modelled from the spec: the index array cut into the contiguous
    ranges of its parts (section 4.2). *)
Fixpoint part_slices (indices : list N) (counts : list N) : list (list N) :=
  match counts with
  | [] => []
  | c :: cs =>
      firstn (N.to_nat c) indices :: part_slices (skipn (N.to_nat c) indices) cs
  end.

(** Modelled from the spec: the box of a part (section 3), tight around
    the scaled vertices the part refers to. *)
Definition part_bbox (cfg : LoadConfig) (vertices : list vec4f)
           (slice : list N) : BBox :=
  fold_left
    (fun b i =>
       match nth_error vertices (N.to_nat i) with
       | Some v => merge_point b (scale_position cfg v)
       | None => b
       end)
    slice BBox_new.

(** Modelled from the spec: the index width (section 4.2), 2 bytes when
    indices are stored as shorts and 4 otherwise. *)
Definition index_size (shorts : bool) : N := if shorts then 2 else 4.

(** Modelled from the spec: shorts are used when [allowShorts] is set
    and the vertex count fits in 16 bits (sections 4.2 and 8). *)
Definition use_shorts (cfg : LoadConfig) (numVertices : N) : bool :=
  allowShorts cfg && (numVertices <=? 65535)%N.

(** Modelled from the spec: the part table of a geometry (section 4.2).
    Each part's index range follows the one before it;
    its meshlet range is the builder's, or empty when there is none. *)
Fixpoint part_table (isize offset : N) (counts : list N)
         (ranges : list MeshletRange.t) : list GeometryPart.t :=
  match counts with
  | [] => []
  | c :: cs =>
      GeometryPart.mk (DrawRange.mk offset (Z.of_N c))
                      (hd (MeshletRange.mk 0 0) ranges)
      :: part_table isize (offset + c * isize) cs (tl ranges)
  end.

(** Modelled from the spec: what is checked of a geometry when it is
    loaded (section 9): the part counts add up to the index count and
    every index names a vertex. *)
Definition geometry_wellformed (g : CSF.Geometry) : bool :=
  (fold_right N.add 0 (CSF.part_counts g)
   =? N.of_nat (List.length (CSF.indexSolid g)))%N
  && forallb (fun i => (i <? N.of_nat (List.length (CSF.vertex g)))%N)
             (CSF.indexSolid g).

(** Modelled from the spec: the meshlet step of one geometry in
    [loadCSF] (section 4.2).  A builder that yields nothing is no error:
    the geometry keeps [numMeshlets = 0] and no buffers. *)
Definition load_meshlets (ext : External) (cfg : LoadConfig)
           (g : CSF.Geometry) (isize : N) : Load N :=
  match build_meshlets ext cfg g with
  | None => ret 0%N
  | Some mb =>
      (modify_scene
         (update_last_geometry
            (set_meshlet
               (MeshletTopology.mk (built_primSize mb) (built_descSize mb)
                                   (built_numMeshlets mb) nullptr nullptr)
               (built_meshSize mb) (built_meshIndicesSize mb)
               (part_table isize 0 (CSF.part_counts g) (built_ranges mb)))) ;;
       prim <- malloc (built_primSize mb) ;;
       modify_scene (update_last_geometry (set_primData prim)) ;;
       desc <- malloc (built_descSize mb) ;;
       modify_scene (update_last_geometry (set_descData desc)) ;;
       ret (built_meshSize mb))%load
  end.

(** Modelled from the spec: the record of a geometry (sections 3 and
    4.2) before any buffer exists: its place in the
    part tables of the scene, its sizes (vertex and attribute stride by
    precision, index width by [use_shorts]) and its part table. *)
Definition new_geometry (cfg : LoadConfig) (s : t) (g : CSF.Geometry)
  : Geometry.t :=
  let numVertices := N.of_nat (List.length (CSF.vertex g)) in
  let numIndex := N.of_nat (List.length (CSF.indexSolid g)) in
  let shorts := use_shorts cfg numVertices in
  Geometry.mk (Z.of_N (m_numGeometryParts s)) (if shorts then 1 else 0)
              (Z.of_nat (List.length (m_bboxes s)))
              (getVertexSize s * numVertices)
              (getVertexAttributeSize s * numVertices)
              (index_size shorts * numIndex) 0 0
              (MeshletTopology.mk 0 0 0 nullptr nullptr)
              (part_table (index_size shorts) 0 (CSF.part_counts g) [])
              (Z.of_N numVertices) (Z.of_N numIndex)
              nullptr nullptr nullptr.

(** Modelled from the spec: one geometry of [loadCSF] (section 4.2).  Its
    record joins [m_geometry] first, with its sizes and no buffers, and
    receives each buffer as it is allocated, so that whatever was
    allocated is owned by the scene at every moment. *)
Definition load_geometry (ext : External) (cfg : LoadConfig)
           (g : CSF.Geometry) : Load unit :=
  let numIndex := N.of_nat (List.length (CSF.indexSolid g)) in
  let isize := index_size (use_shorts cfg (N.of_nat (List.length (CSF.vertex g)))) in
  (guard IndexOverflow (numIndex <=? UINT32_MAX)%N ;;
   guard SourceMalformed (geometry_wellformed g) ;;
   s <- get_scene ;;
   let g0 := new_geometry cfg s g in
   modify_scene (push_geometry g0) ;;
   vbo <- malloc (Geometry.vboSize g0) ;;
   modify_scene (update_last_geometry (set_vboData vbo)) ;;
   abo <- malloc (Geometry.aboSize g0) ;;
   modify_scene (update_last_geometry (set_aboData abo)) ;;
   ibo <- malloc (Geometry.iboSize g0) ;;
   modify_scene (update_last_geometry (set_iboData ibo)) ;;
   meshSize <- load_meshlets ext cfg g isize ;;
   modify_scene
     (commit_geometry
        (Geometry.vboSize g0) (Geometry.iboSize g0) meshSize
        (N.of_nat (List.length (CSF.part_counts g)))
        (map (part_bbox cfg (CSF.vertex g))
             (part_slices (CSF.indexSolid g) (CSF.part_counts g)))))%load.

(** Modelled from the spec: the box of a geometry, the union of its part
    boxes in the flattened table [m_bboxes] (section 3). *)
Definition geometry_bbox (s : t) (g : Geometry.t) : BBox :=
  fold_left merge
    (firstn (List.length (Geometry.parts g))
            (skipn (Z.to_nat (Geometry.partBboxOffset g)) (m_bboxes s)))
    BBox_new.

(** Modelled from the spec: the cross references of a node are checked
    when it is loaded (sections 3 and 9): its
    geometry exists and has at least as many parts, and every part names
    an existing material and node. *)
Definition node_wellformed (file : CSF.File) (s : t) (node : CSF.Node) : bool :=
  match CSF.geometryIDX node with
  | None => true
  | Some gi =>
      match nth_error (m_geometry s) (N.to_nat gi) with
      | None => false
      | Some g =>
          (List.length (CSF.node_parts node)
           <=? List.length (Geometry.parts g))%nat
          && forallb
               (fun p =>
                  (CSF.materialIDX p <? N.of_nat (List.length (m_materials s)))%N
                  && (CSF.nodeIDX p <? N.of_nat (List.length (CSF.nodes file)))%N)
               (CSF.node_parts node)
      end
  end.

(** Modelled from the spec: the [MatrixNode] of a node (section 3). *)
Definition node_matrix (ext : External) (cfg : LoadConfig) (s : t)
           (node : CSF.Node) : MatrixNode :=
  let box :=
    match CSF.geometryIDX node with
    | Some gi =>
        match nth_error (m_geometry s) (N.to_nat gi) with
        | Some g => geometry_bbox s g
        | None => BBox_new
        end
    | None => BBox_new
    end in
  mkMatrixNode (CSF.worldTM node) (inverse_transpose ext (CSF.worldTM node))
               (CSF.objectTM node) (min box) (max box)
               (mkvec3f zero zero zero)
               (if keeps_winding ext (CSF.worldTM node) then one else opp one)
               (instance_color ext cfg (List.length (m_matrices s))).

(** Modelled from the spec: the [ObjectPart] of a part entry (section 3). *)
Definition object_part (p : CSF.NodePart) : ObjectPart.t :=
  ObjectPart.mk (if CSF.active p then 1 else 0)
                (Z.of_N (CSF.materialIDX p)) (Z.of_N (CSF.nodeIDX p)).

(** Modelled from the spec: one node of [loadCSF] (sections 3 and 4.3):
    a matrix always, and an object when it has a geometry. *)
Definition load_node (ext : External) (cfg : LoadConfig) (file : CSF.File)
           (node : CSF.Node) : Load unit :=
  (s <- get_scene ;;
   guard SourceMalformed (node_wellformed file s node) ;;
   modify_scene (push_matrix (node_matrix ext cfg s node)) ;;
   match CSF.geometryIDX node with
   | None => ret tt
   | Some gi =>
       modify_scene
         (push_object
            (Object.mk (Z.of_N (m_numObjectParts s))
                       (Z.of_nat (List.length (m_matrices s)))
                       (Z.of_N gi)
                       (if keeps_winding ext (CSF.worldTM node) then 1 else 0)
                       (map object_part (CSF.node_parts node))))
   end)%load.

(** Modelled from the spec: [m_bbox], the union of all part boxes
    (section 4.3). *)
Definition scene_bbox (s : t) : BBox := fold_left merge (m_bboxes s) BBox_new.

(** Modelled from the spec: the box of an object's geometry under the
    object's world matrix (section 4.3). *)
Definition object_bbox (s : t) (o : Object.t) : BBox :=
  match nth_error (m_geometry s) (Z.to_nat (Object.geometryIndex o)),
        nth_error (m_matrices s) (Z.to_nat (Object.matrixIndex o)) with
  | Some g, Some m =>
      match transformed (geometry_bbox s g) (worldMatrix m) 3 with
      | Some b => b
      | None => BBox_new
      end
  | _, _ => BBox_new
  end.

(** Modelled from the spec: [m_bboxInstanced], the union of the
    transformed boxes of all objects (section 4.3). *)
Definition instanced_bbox (s : t) : BBox :=
  fold_left (fun acc o => merge acc (object_bbox s o)) (m_objects s) BBox_new.

(** Modelled from the spec: the matrix of a clone (section 4.3), moved
    along the clone axis. *)
Definition clone_matrix (ext : External) (box : BBox) (axis : Z) (c : nat)
           (m : MatrixNode) : MatrixNode :=
  let world := clone_world ext box axis c (worldMatrix m) in
  mkMatrixNode world (inverse_transpose ext world) (objectMatrix m)
               (bboxMin m) (bboxMax m) (_pad0 m) (winding m) (color m).

(** Modelled from the spec: a clone of an object (section 4.3) refers to
    the clone's matrices and to the same geometry. *)
Definition clone_object (matrixShift partShift : Z) (o : Object.t) : Object.t :=
  Object.mk (Object.partOffset o + partShift)
            (Object.matrixIndex o + matrixShift)
            (Object.geometryIndex o) (Object.faceCCW o)
            (map (fun p =>
                    ObjectPart.mk (ObjectPart.active p)
                                  (ObjectPart.materialIndex p)
                                  (ObjectPart.matrixIndex p + matrixShift))
                 (Object.parts o)).

(** Modelled from the spec: the clones of [loadCSF] (section 4.3).
    Clones [c], [c + 1], ..., [c + n - 1] of the original matrices and
    objects are appended in this order. *)
Fixpoint add_clones (ext : External) (box : BBox) (axis : Z)
         (matrices : list MatrixNode) (objects : list Object.t)
         (n c : nat) (s : t) : t :=
  match n with
  | O => s
  | S n' =>
      add_clones ext box axis matrices objects n' (S c)
        (push_clone
           (map (clone_matrix ext box axis c) matrices)
           (map (clone_object
                   (Z.of_nat (c * List.length matrices))
                   (Z.of_nat c * Z.of_N (object_parts objects)))
                objects)
           s)
  end.

(** Modelled from the spec: the end of [loadCSF] (section 4.3), after
    the last step that can fail: the scene box, the pre-clone counts, the
    clones (only when [clones > 0]) and the instanced box. *)
Definition finish_load (ext : External) (clones cloneaxis : Z) (s : t) : t :=
  let s1 := record_orig_counts (set_bbox (scene_bbox s) s) in
  let axis := if (cloneaxis =? 3)%Z then auto_axis ext (m_bbox s1) else cloneaxis in
  let s2 := add_clones ext (m_bbox s1) axis (m_matrices s1) (m_objects s1)
                       (Z.to_nat clones) 1 s1 in
  set_bboxInstanced (instanced_bbox s2) s2.

(** Modelled from the spec: the padded [Material] of a source material
    (section 3). *)
Definition material_of (two_sides : MaterialSide * MaterialSide) : Material :=
  mkMaterial two_sides (repeat 0%Z 32).

(** Modelled from the spec: the steps of [loadCSF] in order (sections
    4.3 and 7): open and parse the source, then materials, geometries,
    nodes, and the steps that cannot fail. *)
Definition load_steps (ext : External) (filename : string) (cfg : LoadConfig)
           (clones cloneaxis : Z) : Load unit :=
  match read_csf ext filename with
  | CSF.Unreadable => fail SourceUnreadable
  | CSF.Malformed => fail SourceMalformed
  | CSF.Parsed file =>
      (modify_scene (set_cfg cfg) ;;
       modify_scene (set_materials (map material_of (CSF.materials file))) ;;
       for_each (load_geometry ext cfg) (CSF.geometries file) ;;
       for_each (load_node ext cfg file) (CSF.nodes file) ;;
       modify_scene (finish_load ext clones cloneaxis))%load
  end.

(** *** unload and loadCSF *)

(** Modelled from the spec: [void CadScene::unload()], whose body is in
    [cadscene.cpp].  It releases every owned buffer of every geometry
    (clearing [m_geometry] runs [~Geometry] on each element), clears all
    containers and resets all size and count fields to zero. *)
Definition unload (w : World) : World :=
  (mk [] [] [] [] [] 0 0 0 0 0
      (m_cfg (fst w)) (m_bbox (fst w)) (m_bboxInstanced (fst w)) 0 0 0,
   fold_left (fun h g => Geometry_destroy g h) (m_geometry (fst w)) (snd w)).

(** Modelled from the spec: [bool CadScene::loadCSF(filename, cfg,
    clones, cloneaxis)], whose body is in [cadscene.cpp].  It runs the
    steps of the load; when one fails the whole load is abandoned and the
    scene is rolled back with [unload]. *)
Definition loadCSF (ext : External) (filename : string) (cfg : LoadConfig)
           (clones cloneaxis : Z) (w : World) : bool * World :=
  match load_steps ext filename cfg clones cloneaxis w with
  | (inr _, w') => (true, w')
  | (inl _, w') => (false, unload w')
  end.

(** Modelled from the spec: the [Empty] state of section 4.3, in which
    every container is empty and every size and count field is zero. *)
Definition is_empty (s : t) : bool :=
  match m_materials s, m_bboxes s, m_geometry s, m_matrices s, m_objects s with
  | [], [], [], [], [] =>
      (m_vboSize s =? 0)%N && (m_iboSize s =? 0)%N && (m_meshSize s =? 0)%N
      && (m_numGeometryParts s =? 0)%N && (m_numObjectParts s =? 0)%N
      && (m_numOrigGeometries s =? 0)%N && (m_numOrigMatrices s =? 0)%N
      && (m_numOrigObjects s =? 0)%N
  | _, _, _, _, _ => false
  end.

(** The blocks a scene owns, and the books of a heap that serves it:
    on top of the blocks [live0] that were live before, the live blocks
    are exactly the owned ones, and their bytes are what is missing from
    the [avail0] bytes there were. *)
Definition owned (s : t) : list nat := flat_map geometry_blocks (m_geometry s).

Definition balanced (live0 : list (nat * N)) (avail0 : N)
           (blocks : list nat) (h : Heap.t) : Prop :=
  Heap.wf h /\
  exists mine : list (nat * N),
    Heap.live h = mine ++ live0 /\
    Permutation (map fst mine) blocks /\
    (Heap.available h + fold_right N.add 0 (map snd mine) = avail0)%N.

(** The books are in order in a state, and a computation keeps them in
    order when it does so whether it succeeds or fails. *)
Definition in_order (live0 : list (nat * N)) (avail0 : N) (w : World) : Prop :=
  balanced live0 avail0 (owned (fst w)) (snd w).

Definition keeps_order {A : Type} (live0 : list (nat * N)) (avail0 : N)
           (c : Load A) : Prop :=
  forall w, in_order live0 avail0 w -> in_order live0 avail0 (snd (c w)).

(** The sizes of the three containers a load counts. *)
Definition sizes (w : World) : nat * nat * nat :=
  (List.length (m_geometry (fst w)), List.length (m_matrices (fst w)),
   List.length (m_objects (fst w))).

(** The nodes that carry a geometry: these become objects. *)
Definition object_nodes (ns : list CSF.Node) : nat :=
  List.length
    (filter (fun n => match CSF.geometryIDX n with Some _ => true | None => false end)
            ns).

End CadScene.

(** ** class ResourcesGL

    The part of the resource layer in the same file that computes. *)

Module ResourcesGL.

(** [uvec2]: two 32-bit unsigned integers. *)
Record uvec2 : Set := mkuvec2 { x : N; y : N }.

(** [uvec2 storeU64(GLuint64 address)]:
    [uvec2(address & 0xFFFFFFFF, address >> 32)], each argument converted
    to a 32-bit unsigned integer. *)
Definition storeU64 (address : N) : uvec2 :=
  mkuvec2 (N.land address 4294967295 mod 2 ^ 32)
          (N.shiftr address 32 mod 2 ^ 32).

(** [static const int CYCLED_FRAMES = 4;] *)
Definition CYCLED_FRAMES : Z := 4.

End ResourcesGL.

(** ** Sample boxes, points and matrices *)

Module Samples.
Import F32 nvmath CadScene.

(** The box from (0,0,0,0) to (1,1,1,1). *)
Definition unit_box : BBox := mkBBox (vec4f_splat zero) (vec4f_splat one).

(** The box from (2,2,2,2) to (3,3,3,3). *)
Definition far_box : BBox :=
  mkBBox (vec4f_splat (of_Z 2)) (vec4f_splat (of_Z 3)).

(** A box whose components are all NaN. *)
Definition nan_box : BBox := mkBBox (vec4f_splat nan) (vec4f_splat nan).

(** A box with [min] above [max]: from (-5,..) down to (-7,..). *)
Definition inverted_box : BBox :=
  mkBBox (vec4f_splat (of_Z (-5))) (vec4f_splat (of_Z (-7))).


(** The default configuration with half precision switched on. *)
Definition fp16_cfg : LoadConfig :=
  mkLoadConfig one true true true false 0 64 126 MESHLET_BUILDER_PACKBASIC.

(** An empty scene holding a given configuration. *)
Definition scene_with (cfg : LoadConfig) : CadScene.t :=
  CadScene.mk [] [] [] [] [] 0 0 0 0 0 cfg BBox_new BBox_new 0 0 0.

(** A configuration with three extra attributes per vertex. *)
Definition extra_cfg : LoadConfig :=
  mkLoadConfig one true false true false 3 64 126 MESHLET_BUILDER_PACKBASIC.

(** A geometry that owns three buffers, and a heap in which they are
    the live blocks. *)
Definition three_buffers : Geometry.t :=
  Geometry.mk 0 1 0 48 48 6 0 0 (MeshletTopology.mk 0 0 0 nullptr nullptr)
              [] 3 3 (Some 0) (Some 1) (Some 2).
Definition three_blocks : Heap.t :=
  Heap.mk 10 4 [(0, 48%N); (1, 48%N); (2, 6%N); (3, 100%N)].

Definition origin : vec4f := vec4f_splat zero.
Definition ones : vec4f := vec4f_splat one.
Definition minus_three : vec4f := vec4f_splat (of_Z (-3)).
Definition nan_point : vec4f := vec4f_splat nan.
End Samples.

(** ** A sample source: one triangle *)

Module SampleScene.
Import F32 nvmath CadScene.
Local Open Scope string_scope.

Definition white : vec4f := vec4f_splat one.
Definition side : MaterialSide := mkMaterialSide white white white white.

(** Three vertices, one index triple, one part. *)
Definition triangle : CSF.Geometry :=
  CSF.mkGeometry
    [ mkvec4f zero zero zero one;
      mkvec4f one zero zero one;
      mkvec4f zero one zero one ]
    [0%N; 1%N; 2%N]
    [3%N].

Definition triangle_node : CSF.Node :=
  CSF.mkNode mat_identity mat_identity (Some 0%N)
             [CSF.mkNodePart true 0 0].

(** A node that is a transform only. *)
Definition group_node : CSF.Node :=
  CSF.mkNode mat_identity mat_identity None [].

Definition triangle_file : CSF.File :=
  CSF.mkFile [(side, side)] [triangle] [group_node; triangle_node].

(** A file whose only node names a geometry that does not exist. *)
Definition dangling_file : CSF.File :=
  CSF.mkFile [(side, side)] [triangle]
             [CSF.mkNode mat_identity mat_identity (Some 7%N) []].

(** A small file system, and collaborators that build no meshlets. *)
Definition ext : External :=
  mkExternal
    (fun name =>
       if String.eqb name "triangle.csf" then CSF.Parsed triangle_file
       else if String.eqb name "dangling.csf" then CSF.Parsed dangling_file
       else if String.eqb name "garbage.csf" then CSF.Malformed
       else CSF.Unreadable)
    (fun _ _ => None)
    (fun m => m)
    (fun _ => true)
    (fun _ _ => white)
    (fun _ => 0%Z)
    (fun _ _ _ m => m).

(** The same, with a builder that packs every geometry into one meshlet. *)
Definition ext_meshlets : External :=
  mkExternal (read_csf ext)
    (fun _ g =>
       Some (mkMeshletBuild 64 16 1 80 12
               (map (fun _ => MeshletRange.mk 0 1) (CSF.part_counts g))))
    (inverse_transpose ext) (keeps_winding ext) (instance_color ext)
    (auto_axis ext) (clone_world ext).

Definition roomy : Heap.t := Heap.mk 4096 0 [].
Definition cramped : Heap.t := Heap.mk 100 0 [].

Definition fresh : World := (CadScene.new 0 0 0, roomy).

(** The triangle loaded with two clones along x. *)
Definition loaded : World :=
  snd (loadCSF ext "triangle.csf" LoadConfig_new 2 0 fresh).
End SampleScene.

(* ================================================================== *)
(** * Part II: properties *)
(* ================================================================== *)

Import F32 nvmath.

(** ** The order of binary32

    On the floats that are not NaN, [<=] is a total preorder whose only
    ties between different values are the two zeros. *)

Ltac float_unfold :=
  unfold nv_min_scalar, nv_max_scalar, leb, ltb, gtb, eqb, is_nan,
         SFleb, SFltb, SFeqb, SFcompare in *.

Lemma compare_cont_Eq (a b : positive) :
  Pos.compare_cont Eq a b = Pos.compare a b.
Proof. reflexivity. Qed.

Ltac compare_cases :=
  repeat match goal with
    | |- context [Z.compare ?a ?b] => destruct (Z.compare_spec a b)
    | |- context [Pos.compare_cont Eq ?a ?b] =>
        rewrite (compare_cont_Eq a b);
        destruct (Pos.compare_spec a b)
    end.

Ltac float_order :=
  float_unfold;
  repeat match goal with
    | a : float |- _ => destruct a as [[|]|[|]| |[|] ? ?]
    | a : spec_float |- _ => destruct a as [[|]|[|]| |[|] ? ?]
    end;
  simpl; try reflexivity; try discriminate;
  repeat (progress (compare_cases; simpl)); intros;
  try reflexivity; try discriminate; try congruence; try lia;
  try (f_equal; lia).

Lemma leb_trans (a b c : float) :
  leb a b = true -> leb b c = true -> leb a c = true.
Proof. float_order. Qed.

Lemma leb_refl (a : float) : is_nan a = false -> leb a a = true.
Proof. float_order. Qed.

Lemma leb_not_nan (a b : float) :
  leb a b = true -> is_nan a = false /\ is_nan b = false.
Proof. float_order; split; reflexivity. Qed.

Lemma ltb_leb (a b : float) : ltb a b = true -> leb a b = true.
Proof. float_order. Qed.

Lemma ltb_false_leb (a b : float) :
  is_nan a = false -> is_nan b = false -> ltb a b = false -> leb b a = true.
Proof. float_order. Qed.

Lemma gtb_ltb (a b : float) : gtb a b = ltb b a.
Proof. float_order. Qed.

Lemma eqb_leb (a b : float) : eqb a b = leb a b && leb b a.
Proof. float_order. Qed.

(** Two floats that compare equal with [==] are the same float, or are
    two zeros (which may differ in sign). *)
Lemma eqb_same (a b : float) :
  eqb a b = true -> a = b \/ (is_zero a = true /\ is_zero b = true).
Proof.
  unfold eqb, SFeqb, SFcompare.
  destruct a as [[|] | [|] | | [|] m e], b as [[|] | [|] | | [|] m' e'];
    simpl; try discriminate; auto;
    rewrite compare_cont_Eq;
    destruct (Z.compare_spec e e'); try discriminate;
    destruct (Pos.compare_spec m m'); try discriminate;
    intros _; left; congruence.
Qed.

(** ** Scalar [nv_min] and [nv_max] *)

Lemma nv_min_scalar_cases (a b : float) :
  nv_min_scalar a b = a \/ nv_min_scalar a b = b.
Proof. unfold nv_min_scalar. destruct (ltb a b); auto. Qed.

Lemma nv_max_scalar_cases (a b : float) :
  nv_max_scalar a b = a \/ nv_max_scalar a b = b.
Proof. unfold nv_max_scalar. destruct (gtb a b); auto. Qed.

Lemma nv_min_scalar_nan_free (a b : float) :
  is_nan a = false -> is_nan b = false -> is_nan (nv_min_scalar a b) = false.
Proof. destruct (nv_min_scalar_cases a b) as [-> | ->]; auto. Qed.

Lemma nv_max_scalar_nan_free (a b : float) :
  is_nan a = false -> is_nan b = false -> is_nan (nv_max_scalar a b) = false.
Proof. destruct (nv_max_scalar_cases a b) as [-> | ->]; auto. Qed.

Lemma nv_min_scalar_le_l (a b : float) :
  is_nan a = false -> is_nan b = false -> leb (nv_min_scalar a b) a = true.
Proof.
  intros Ha Hb. unfold nv_min_scalar.
  destruct (ltb a b) eqn:E.
  - now apply leb_refl.
  - now apply ltb_false_leb.
Qed.

Lemma nv_min_scalar_le_r (a b : float) :
  is_nan b = false -> leb (nv_min_scalar a b) b = true.
Proof.
  intros Hb. unfold nv_min_scalar.
  destruct (ltb a b) eqn:E.
  - now apply ltb_leb.
  - now apply leb_refl.
Qed.

Lemma nv_max_scalar_ge_l (a b : float) :
  is_nan a = false -> is_nan b = false -> leb a (nv_max_scalar a b) = true.
Proof.
  intros Ha Hb. unfold nv_max_scalar. rewrite gtb_ltb.
  destruct (ltb b a) eqn:E.
  - now apply leb_refl.
  - now apply ltb_false_leb.
Qed.

Lemma nv_max_scalar_ge_r (a b : float) :
  is_nan b = false -> leb b (nv_max_scalar a b) = true.
Proof.
  intros Hb. unfold nv_max_scalar. rewrite gtb_ltb.
  destruct (ltb b a) eqn:E.
  - now apply ltb_leb.
  - now apply leb_refl.
Qed.

Lemma nv_min_scalar_glb (a b c : float) :
  leb c a = true -> leb c b = true -> leb c (nv_min_scalar a b) = true.
Proof. destruct (nv_min_scalar_cases a b) as [-> | ->]; auto. Qed.

Lemma nv_max_scalar_lub (a b c : float) :
  leb a c = true -> leb b c = true -> leb (nv_max_scalar a b) c = true.
Proof. destruct (nv_max_scalar_cases a b) as [-> | ->]; auto. Qed.

Lemma nv_min_scalar_assoc (a b c : float) :
  is_nan a = false -> is_nan b = false -> is_nan c = false ->
  nv_min_scalar (nv_min_scalar a b) c = nv_min_scalar a (nv_min_scalar b c).
Proof. float_order. Qed.

Lemma nv_max_scalar_assoc (a b c : float) :
  is_nan a = false -> is_nan b = false -> is_nan c = false ->
  nv_max_scalar (nv_max_scalar a b) c = nv_max_scalar a (nv_max_scalar b c).
Proof. float_order. Qed.

Lemma nv_min_scalar_comm (a b : float) :
  is_nan a = false -> is_nan b = false ->
  eqb (nv_min_scalar a b) (nv_min_scalar b a) = true.
Proof. float_order. Qed.

Lemma nv_max_scalar_comm (a b : float) :
  is_nan a = false -> is_nan b = false ->
  eqb (nv_max_scalar a b) (nv_max_scalar b a) = true.
Proof. float_order. Qed.

Lemma nv_min_scalar_swap_le (a b c : float) :
  is_nan a = false -> is_nan b = false -> is_nan c = false ->
  leb (nv_min_scalar (nv_min_scalar a b) c)
      (nv_min_scalar (nv_min_scalar a c) b) = true.
Proof.
  intros Ha Hb Hc.
  pose proof (nv_min_scalar_nan_free a b Ha Hb) as Hab.
  assert (H1 : leb (nv_min_scalar (nv_min_scalar a b) c) (nv_min_scalar a b) = true)
    by now apply nv_min_scalar_le_l.
  apply nv_min_scalar_glb; [apply nv_min_scalar_glb |].
  - apply leb_trans with (nv_min_scalar a b); [exact H1 |].
    now apply nv_min_scalar_le_l.
  - now apply nv_min_scalar_le_r.
  - apply leb_trans with (nv_min_scalar a b); [exact H1 |].
    now apply nv_min_scalar_le_r.
Qed.

Lemma nv_min_scalar_swap (a b c : float) :
  is_nan a = false -> is_nan b = false -> is_nan c = false ->
  eqb (nv_min_scalar (nv_min_scalar a b) c)
      (nv_min_scalar (nv_min_scalar a c) b) = true.
Proof.
  intros Ha Hb Hc. rewrite eqb_leb. apply andb_true_iff.
  split; now apply nv_min_scalar_swap_le.
Qed.

Lemma nv_max_scalar_swap_le (a b c : float) :
  is_nan a = false -> is_nan b = false -> is_nan c = false ->
  leb (nv_max_scalar (nv_max_scalar a b) c)
      (nv_max_scalar (nv_max_scalar a c) b) = true.
Proof.
  intros Ha Hb Hc.
  pose proof (nv_max_scalar_nan_free a c Ha Hc) as Hac.
  assert (H1 : leb (nv_max_scalar a c) (nv_max_scalar (nv_max_scalar a c) b) = true)
    by now apply nv_max_scalar_ge_l.
  apply nv_max_scalar_lub; [apply nv_max_scalar_lub |].
  - apply leb_trans with (nv_max_scalar a c); [| exact H1].
    now apply nv_max_scalar_ge_l.
  - now apply nv_max_scalar_ge_r.
  - apply leb_trans with (nv_max_scalar a c); [| exact H1].
    now apply nv_max_scalar_ge_r.
Qed.

Lemma nv_max_scalar_swap (a b c : float) :
  is_nan a = false -> is_nan b = false -> is_nan c = false ->
  eqb (nv_max_scalar (nv_max_scalar a b) c)
      (nv_max_scalar (nv_max_scalar a c) b) = true.
Proof.
  intros Ha Hb Hc. rewrite eqb_leb. apply andb_true_iff.
  split; now apply nv_max_scalar_swap_le.
Qed.

(** ** Vectors: the scalar facts, component by component *)

Lemma vec_all2_true (r : float -> float -> bool) (a b : vec4f) :
  vec_all2 r a b = true <->
  r (x a) (x b) = true /\ r (y a) (y b) = true /\
  r (z a) (z b) = true /\ r (w a) (w b) = true.
Proof. unfold vec_all2. rewrite !andb_true_iff. tauto. Qed.

Lemma vec_nan_free_true (a : vec4f) :
  vec_nan_free a = true <->
  is_nan (x a) = false /\ is_nan (y a) = false /\
  is_nan (z a) = false /\ is_nan (w a) = false.
Proof. unfold vec_nan_free. rewrite !andb_true_iff, !negb_true_iff. tauto. Qed.

(** Turns every vector predicate of the goal and the context into facts
    about the four components. *)
Ltac vec_split :=
  unfold vec_leb, vec_eqb in *;
  repeat match goal with
    | H : vec_all2 _ _ _ = true |- _ =>
        apply vec_all2_true in H; destruct H as (? & ? & ? & ?)
    | H : vec_nan_free _ = true |- _ =>
        apply vec_nan_free_true in H; destruct H as (? & ? & ? & ?)
    end;
  try (apply vec_all2_true); try (apply vec_nan_free_true);
  simpl in *.

Lemma vec_leb_trans (a b c : vec4f) :
  vec_leb a b = true -> vec_leb b c = true -> vec_leb a c = true.
Proof. intros; vec_split; repeat split; eapply leb_trans; eauto. Qed.

Lemma vec_leb_refl (a : vec4f) : vec_nan_free a = true -> vec_leb a a = true.
Proof. intros; vec_split; repeat split; now apply leb_refl. Qed.

Lemma vec_leb_nan_free (a b : vec4f) :
  vec_leb a b = true -> vec_nan_free a = true /\ vec_nan_free b = true.
Proof.
  intros; vec_split.
  repeat match goal with
    | H : leb _ _ = true |- _ => apply leb_not_nan in H; destruct H
    end.
  split; apply vec_nan_free_true; auto.
Qed.

Lemma nv_min_nan_free (a b : vec4f) :
  vec_nan_free a = true -> vec_nan_free b = true ->
  vec_nan_free (nv_min a b) = true.
Proof. intros; vec_split; repeat split; now apply nv_min_scalar_nan_free. Qed.

Lemma nv_max_nan_free (a b : vec4f) :
  vec_nan_free a = true -> vec_nan_free b = true ->
  vec_nan_free (nv_max a b) = true.
Proof. intros; vec_split; repeat split; now apply nv_max_scalar_nan_free. Qed.

Lemma nv_min_le_l (a b : vec4f) :
  vec_nan_free a = true -> vec_nan_free b = true ->
  vec_leb (nv_min a b) a = true.
Proof. intros; vec_split; repeat split; now apply nv_min_scalar_le_l. Qed.

Lemma nv_min_le_r (a b : vec4f) :
  vec_nan_free b = true -> vec_leb (nv_min a b) b = true.
Proof. intros; vec_split; repeat split; now apply nv_min_scalar_le_r. Qed.

Lemma nv_max_ge_l (a b : vec4f) :
  vec_nan_free a = true -> vec_nan_free b = true ->
  vec_leb a (nv_max a b) = true.
Proof. intros; vec_split; repeat split; now apply nv_max_scalar_ge_l. Qed.

Lemma nv_max_ge_r (a b : vec4f) :
  vec_nan_free b = true -> vec_leb b (nv_max a b) = true.
Proof. intros; vec_split; repeat split; now apply nv_max_scalar_ge_r. Qed.

Lemma nv_min_glb (a b c : vec4f) :
  vec_leb c a = true -> vec_leb c b = true -> vec_leb c (nv_min a b) = true.
Proof. intros; vec_split; repeat split; now apply nv_min_scalar_glb. Qed.

Lemma nv_max_lub (a b c : vec4f) :
  vec_leb a c = true -> vec_leb b c = true -> vec_leb (nv_max a b) c = true.
Proof. intros; vec_split; repeat split; now apply nv_max_scalar_lub. Qed.

Lemma nv_min_assoc (a b c : vec4f) :
  vec_nan_free a = true -> vec_nan_free b = true -> vec_nan_free c = true ->
  nv_min (nv_min a b) c = nv_min a (nv_min b c).
Proof.
  intros; vec_split. unfold nv_min; simpl.
  f_equal; now apply nv_min_scalar_assoc.
Qed.

Lemma nv_max_assoc (a b c : vec4f) :
  vec_nan_free a = true -> vec_nan_free b = true -> vec_nan_free c = true ->
  nv_max (nv_max a b) c = nv_max a (nv_max b c).
Proof.
  intros; vec_split. unfold nv_max; simpl.
  f_equal; now apply nv_max_scalar_assoc.
Qed.

Lemma nv_min_comm (a b : vec4f) :
  vec_nan_free a = true -> vec_nan_free b = true ->
  vec_eqb (nv_min a b) (nv_min b a) = true.
Proof. intros; vec_split; repeat split; now apply nv_min_scalar_comm. Qed.

Lemma nv_max_comm (a b : vec4f) :
  vec_nan_free a = true -> vec_nan_free b = true ->
  vec_eqb (nv_max a b) (nv_max b a) = true.
Proof. intros; vec_split; repeat split; now apply nv_max_scalar_comm. Qed.

Lemma nv_min_swap (a b c : vec4f) :
  vec_nan_free a = true -> vec_nan_free b = true -> vec_nan_free c = true ->
  vec_eqb (nv_min (nv_min a b) c) (nv_min (nv_min a c) b) = true.
Proof. intros; vec_split; repeat split; now apply nv_min_scalar_swap. Qed.

Lemma nv_max_swap (a b c : vec4f) :
  vec_nan_free a = true -> vec_nan_free b = true -> vec_nan_free c = true ->
  vec_eqb (nv_max (nv_max a b) c) (nv_max (nv_max a c) b) = true.
Proof. intros; vec_split; repeat split; now apply nv_max_scalar_swap. Qed.

(** ** Bounding boxes *)

Import CadScene.

Lemma contains_iff (b : BBox) (p : vec4f) :
  contains b p = true <-> vec_leb (min b) p = true /\ vec_leb p (max b) = true.
Proof. unfold contains. now rewrite andb_true_iff. Qed.

Lemma nan_free_iff (b : BBox) :
  nan_free b = true <->
  vec_nan_free (min b) = true /\ vec_nan_free (max b) = true.
Proof. unfold nan_free. now rewrite andb_true_iff. Qed.

Lemma valid_nan_free (b : BBox) : valid b = true -> nan_free b = true.
Proof.
  unfold valid. intros H. apply vec_leb_nan_free in H.
  now apply nan_free_iff.
Qed.

Lemma merge_nan_free (a b : BBox) :
  nan_free a = true -> nan_free b = true -> nan_free (merge a b) = true.
Proof.
  rewrite !nan_free_iff. intros [? ?] [? ?]. simpl.
  split; [now apply nv_min_nan_free | now apply nv_max_nan_free].
Qed.

Lemma merge_point_nan_free (a : BBox) (p : vec4f) :
  nan_free a = true -> vec_nan_free p = true ->
  nan_free (merge_point a p) = true.
Proof.
  rewrite !nan_free_iff. intros [? ?] ?. simpl.
  split; [now apply nv_min_nan_free | now apply nv_max_nan_free].
Qed.

Lemma merge_contains_r (a b : BBox) (p : vec4f) :
  nan_free b = true -> contains b p = true -> contains (merge a b) p = true.
Proof.
  rewrite nan_free_iff, !contains_iff. intros [Hm HM] [Hl Hu]. simpl. split.
  - eapply vec_leb_trans; [now apply nv_min_le_r | exact Hl].
  - eapply vec_leb_trans; [exact Hu | now apply nv_max_ge_r].
Qed.

Lemma merge_contains_l (a b : BBox) (p : vec4f) :
  nan_free b = true -> contains a p = true -> contains (merge a b) p = true.
Proof.
  rewrite nan_free_iff, !contains_iff. intros [Hm HM] [Hl Hu]. simpl.
  destruct (vec_leb_nan_free _ _ Hl) as [Ha _].
  destruct (vec_leb_nan_free _ _ Hu) as [_ HA].
  split.
  - eapply vec_leb_trans; [now apply nv_min_le_l | exact Hl].
  - eapply vec_leb_trans; [exact Hu | now apply nv_max_ge_l].
Qed.

(** A valid box contains its own two corners [min] and [max]. *)
Lemma valid_contains_min (b : BBox) : valid b = true -> contains b (min b) = true.
Proof.
  intros H. apply contains_iff. split; [| exact H].
  apply vec_leb_refl. now destruct (vec_leb_nan_free _ _ H).
Qed.

Lemma valid_contains_max (b : BBox) : valid b = true -> contains b (max b) = true.
Proof.
  intros H. apply contains_iff. split; [exact H |].
  apply vec_leb_refl. now destruct (vec_leb_nan_free _ _ H).
Qed.

(** Any box that reaches as far as [a] and [b] in both directions
    reaches as far as [merge a b]. *)
Lemma merge_least (a b c : BBox) :
  vec_leb (min c) (min a) = true -> vec_leb (min c) (min b) = true ->
  vec_leb (max a) (max c) = true -> vec_leb (max b) (max c) = true ->
  vec_leb (min c) (min (merge a b)) = true /\
  vec_leb (max (merge a b)) (max c) = true.
Proof.
  intros. simpl. split; [now apply nv_min_glb | now apply nv_max_lub].
Qed.

(** C2 (as amended).  [merge] takes the componentwise [nv_min] of the two
    [min] vectors and the componentwise [nv_max] of the two [max]
    vectors.  When the merged-in box [B] has no NaN component the result
    contains every point [A] contains and every point [B] contains; when
    [A] and [B] are valid boxes it is the smallest box doing so: every
    box containing all those points contains every point of the result. *)
Theorem merge_contains_and_smallest (A B : BBox) :
  (min (merge A B) = nv_min (min A) (min B) /\
   max (merge A B) = nv_max (max A) (max B)) /\
  (nan_free B = true ->
   forall p, contains A p = true \/ contains B p = true ->
             contains (merge A B) p = true) /\
  (valid A = true -> valid B = true ->
   forall C : BBox,
     (forall p, contains A p = true \/ contains B p = true ->
                contains C p = true) ->
     forall p, contains (merge A B) p = true -> contains C p = true).
Proof.
  split; [split; reflexivity |]. split.
  - intros HB p [Hp | Hp].
    + now apply merge_contains_l.
    + now apply merge_contains_r.
  - intros HvA HvB C HC p Hp.
    pose proof (HC _ (or_introl (valid_contains_min A HvA))) as HAm.
    pose proof (HC _ (or_introl (valid_contains_max A HvA))) as HAM.
    pose proof (HC _ (or_intror (valid_contains_min B HvB))) as HBm.
    pose proof (HC _ (or_intror (valid_contains_max B HvB))) as HBM.
    apply contains_iff in HAm, HAM, HBm, HBM, Hp.
    destruct (merge_least A B C) as [Hlo Hhi]; try tauto.
    apply contains_iff. split.
    + eapply vec_leb_trans; [exact Hlo | tauto].
    + eapply vec_leb_trans; [| exact Hhi]. tauto.
Qed.

Lemma merge_contains_and_smallest_witness :
  contains (merge Samples.unit_box Samples.far_box) Samples.ones = true /\
  (forall C : BBox,
     (forall p, contains Samples.unit_box p = true \/
                contains Samples.far_box p = true -> contains C p = true) ->
     contains C (vec4f_splat (of_Z 2)) = true).
Proof.
  destruct (merge_contains_and_smallest Samples.unit_box Samples.far_box)
    as (_ & Hin & Hleast).
  split.
  - apply Hin; [reflexivity | left; reflexivity].
  - intros C HC. apply (Hleast eq_refl eq_refl C HC). reflexivity.
Defined.

(** C2 fails as stated.  A point of the unit box is lost when a box with
    NaN components is merged in; and the merge of an inverted box with
    the unit box is not the smallest box around their points, since the
    unit box itself contains them all and misses (-3,-3,-3,-3). *)
Lemma merge_not_smallest_counterexample :
  (contains Samples.unit_box Samples.origin = true /\
   contains (merge Samples.unit_box Samples.nan_box) Samples.origin = false) /\
  (nan_free Samples.inverted_box = true /\
   (forall p, contains Samples.inverted_box p = false) /\
   contains (merge Samples.inverted_box Samples.unit_box)
            Samples.minus_three = true /\
   contains Samples.unit_box Samples.minus_three = false).
Proof.
  split; [split; reflexivity |].
  split; [reflexivity |]. split; [| split; reflexivity].
  intros p. destruct (contains Samples.inverted_box p) eqn:E; [| reflexivity].
  apply contains_iff in E. destruct E as [Hl Hu].
  pose proof (vec_leb_trans _ _ _ Hl Hu) as H. discriminate H.
Qed.

Lemma box_eqb_iff (a b : BBox) :
  box_eqb a b = true <->
  vec_eqb (min a) (min b) = true /\ vec_eqb (max a) (max b) = true.
Proof. unfold box_eqb. now rewrite andb_true_iff. Qed.

Lemma merge_assoc (a b c : BBox) :
  nan_free a = true -> nan_free b = true -> nan_free c = true ->
  merge (merge a b) c = merge a (merge b c).
Proof.
  rewrite !nan_free_iff. intros [? ?] [? ?] [? ?].
  unfold merge; simpl. f_equal; [now apply nv_min_assoc | now apply nv_max_assoc].
Qed.

Lemma merge_comm (a b : BBox) :
  nan_free a = true -> nan_free b = true ->
  box_eqb (merge a b) (merge b a) = true.
Proof.
  rewrite !nan_free_iff. intros [? ?] [? ?]. apply box_eqb_iff; simpl.
  split; [now apply nv_min_comm | now apply nv_max_comm].
Qed.

Lemma merge_swap (a b c : BBox) :
  nan_free a = true -> nan_free b = true -> nan_free c = true ->
  box_eqb (merge (merge a b) c) (merge (merge a c) b) = true.
Proof.
  rewrite !nan_free_iff. intros [? ?] [? ?] [? ?]. apply box_eqb_iff; simpl.
  split; [now apply nv_min_swap | now apply nv_max_swap].
Qed.

Lemma merge_point_swap (a : BBox) (p q : vec4f) :
  nan_free a = true -> vec_nan_free p = true -> vec_nan_free q = true ->
  box_eqb (merge_point (merge_point a p) q)
          (merge_point (merge_point a q) p) = true.
Proof.
  rewrite !nan_free_iff. intros [? ?] ? ?. apply box_eqb_iff; simpl.
  split; [now apply nv_min_swap | now apply nv_max_swap].
Qed.

Lemma merge_point_assoc (a : BBox) (p q : vec4f) :
  nan_free a = true -> vec_nan_free p = true -> vec_nan_free q = true ->
  merge_point (merge_point a p) q = merge a (merge_point (mkBBox p p) q).
Proof.
  rewrite !nan_free_iff. intros [? ?] ? ?.
  unfold merge, merge_point; simpl.
  f_equal; [now apply nv_min_assoc | now apply nv_max_assoc].
Qed.

(** C8 (as amended).  For boxes and points without NaN components,
    [merge] is associative: [(A merge B) merge C] is the very box
    [A merge (B merge C)]; and it is commutative up to the sign of zero
    components: [A merge B] and [B merge A], and merging [B] then [C]
    into [A] or [C] then [B], give boxes that compare equal with [==]
    in every component.  Merging points behaves the same way. *)
Theorem merge_assoc_comm (A B C : BBox) (p q : vec4f) :
  nan_free A = true -> nan_free B = true -> nan_free C = true ->
  vec_nan_free p = true -> vec_nan_free q = true ->
  merge (merge A B) C = merge A (merge B C) /\
  box_eqb (merge A B) (merge B A) = true /\
  box_eqb (merge (merge A B) C) (merge (merge A C) B) = true /\
  merge_point (merge_point A p) q = merge A (merge_point (mkBBox p p) q) /\
  box_eqb (merge_point (merge_point A p) q)
          (merge_point (merge_point A q) p) = true.
Proof.
  intros HA HB HC Hp Hq. repeat split.
  - now apply merge_assoc.
  - now apply merge_comm.
  - now apply merge_swap.
  - now apply merge_point_assoc.
  - now apply merge_point_swap.
Qed.

Lemma merge_assoc_comm_witness :
  merge (merge Samples.unit_box Samples.far_box) Samples.inverted_box
  = merge Samples.unit_box (merge Samples.far_box Samples.inverted_box) /\
  box_eqb (merge Samples.unit_box Samples.far_box)
          (merge Samples.far_box Samples.unit_box) = true.
Proof.
  destruct (merge_assoc_comm Samples.unit_box Samples.far_box
              Samples.inverted_box Samples.origin Samples.ones
              eq_refl eq_refl eq_refl eq_refl eq_refl)
    as (H1 & H2 & _).
  exact (conj H1 H2).
Defined.

(** C8 fails as stated.  With a box of NaN components in the middle, the
    two orders of merging differ even under [==], and the two ways of
    bracketing give different boxes; and since [nv_min] returns its
    second argument on a tie, swapping +0 and -0 changes the sign of the
    zero that is kept. *)
Lemma merge_not_comm_counterexample :
  box_eqb (merge Samples.unit_box Samples.nan_box)
          (merge Samples.nan_box Samples.unit_box) = false /\
  merge (merge Samples.unit_box Samples.nan_box) Samples.far_box
  <> merge Samples.unit_box (merge Samples.nan_box Samples.far_box) /\
  box_eqb (merge_point (merge_point Samples.unit_box Samples.nan_point) Samples.ones)
          (merge_point (merge_point Samples.unit_box Samples.ones) Samples.nan_point)
  = false /\
  merge (mkBBox (vec4f_splat zero) (vec4f_splat zero))
        (mkBBox (vec4f_splat nzero) (vec4f_splat nzero))
  <> merge (mkBBox (vec4f_splat nzero) (vec4f_splat nzero))
           (mkBBox (vec4f_splat zero) (vec4f_splat zero)).
Proof.
  split; [reflexivity |]. split; [discriminate |].
  split; [reflexivity | discriminate].
Qed.

(** ** The sentinel of a fresh box *)

Lemma digits2_pos_bound (m : positive) :
  (Zpos m < 2 ^ Zpos (digits2_pos m))%Z.
Proof.
  induction m as [m IH | m IH |]; simpl digits2_pos.
  - rewrite Pos2Z.inj_succ, Z.pow_succ_r by lia. lia.
  - rewrite Pos2Z.inj_succ, Z.pow_succ_r by lia. lia.
  - reflexivity.
Qed.

(** [FLT_MAX] is the largest of the finite binary32 values, and
    [-FLT_MAX] the smallest. *)
Lemma FLT_MAX_largest (a : float) :
  F32.valid a = true -> is_finite a = true ->
  leb a FLT_MAX = true /\ leb (opp FLT_MAX) a = true.
Proof.
  destruct a as [s | s | | s m e]; try discriminate.
  - intros _ _. destruct s; split; reflexivity.
  - unfold F32.valid, valid_binary, bounded, canonical_mantissa, fexp, emin,
      F32.prec, F32.emax.
    intros Hb _. apply andb_true_iff in Hb. destruct Hb as [Hc He].
    apply Z.eqb_eq in Hc. apply Z.leb_le in He.
    pose proof (digits2_pos_bound m) as Hd.
    assert (Hm : (e = 104 -> Zpos m <= 16777215)%Z).
    { intros ->.
      assert (Zpos (digits2_pos m) = 24)%Z as Hd24 by lia.
      rewrite Hd24 in Hd. change (2 ^ 24)%Z with 16777216%Z in Hd. lia. }
    unfold leb, SFleb, FLT_MAX, opp, SFmax_float, SFopp, F32.prec, F32.emax.
    change (Pos.sub (Pos.iter xO xH (Z.to_pos 24)) 1) with 16777215%positive.
    change (128 - 24)%Z with 104%Z.
    destruct s; cbv beta iota delta [SFcompare negb]; split; try reflexivity.
    + destruct (Z.compare_spec 104 e); try reflexivity; try lia.
      subst e. specialize (Hm eq_refl).
      rewrite compare_cont_Eq.
      destruct (Pos.compare_spec 16777215 m); try reflexivity; lia.
    + destruct (Z.compare_spec e 104); try reflexivity; try lia.
      subst e. specialize (Hm eq_refl).
      rewrite compare_cont_Eq.
      destruct (Pos.compare_spec m 16777215); try reflexivity; lia.
Qed.

Lemma merge_point_valid (b : BBox) (p : vec4f) :
  vec_nan_free p = true ->
  valid (merge_point b p) = true /\ contains (merge_point b p) p = true.
Proof.
  intros Hp.
  assert (Hl : vec_leb (min (merge_point b p)) p = true)
    by (simpl; now apply nv_min_le_r).
  assert (Hu : vec_leb p (max (merge_point b p)) = true)
    by (simpl; now apply nv_max_ge_r).
  split.
  - unfold valid. now apply vec_leb_trans with p.
  - apply contains_iff. now split.
Qed.

Lemma merge_valid (a b : BBox) : valid b = true -> valid (merge a b) = true.
Proof.
  intros Hb. pose proof (valid_nan_free b Hb) as Hn.
  apply nan_free_iff in Hn. destruct Hn as [Hm HM].
  unfold valid; simpl.
  apply vec_leb_trans with (min b); [now apply nv_min_le_r |].
  apply vec_leb_trans with (max b); [exact Hb | now apply nv_max_ge_r].
Qed.

(** C5 (as amended).  A fresh box starts at the sentinel
    (+FLT_MAX, -FLT_MAX) in every component: the largest finite float and
    its negation, both finite and strictly inside the infinities.  The
    sentinel is not a valid box; merging one point without NaN
    components, or one valid box, into it gives a valid box (which
    contains the point). *)
Theorem BBox_new_sentinel :
  (min BBox_new = vec4f_splat FLT_MAX /\
   max BBox_new = vec4f_splat (opp FLT_MAX)) /\
  (is_finite FLT_MAX = true /\ F32.valid FLT_MAX = true /\
   ltb FLT_MAX pinf = true /\ ltb ninf (opp FLT_MAX) = true /\
   forall a, F32.valid a = true -> is_finite a = true ->
             leb a FLT_MAX = true /\ leb (opp FLT_MAX) a = true) /\
  valid BBox_new = false /\
  (forall p, vec_nan_free p = true ->
             valid (merge_point BBox_new p) = true /\
             contains (merge_point BBox_new p) p = true) /\
  (forall b, valid b = true -> valid (merge BBox_new b) = true).
Proof.
  split; [split; reflexivity |].
  split; [repeat split; try reflexivity; now apply FLT_MAX_largest |].
  split; [reflexivity |]. split.
  - intros p Hp. now apply merge_point_valid.
  - intros b Hb. now apply merge_valid.
Qed.

Lemma BBox_new_sentinel_witness :
  valid (merge_point BBox_new Samples.ones) = true /\
  valid (merge BBox_new Samples.unit_box) = true /\
  leb one FLT_MAX = true.
Proof.
  destruct BBox_new_sentinel as (_ & (_ & _ & _ & _ & Hmax) & _ & Hpt & Hbox).
  split; [| split].
  - apply (Hpt Samples.ones). reflexivity.
  - apply (Hbox Samples.unit_box). reflexivity.
  - apply (Hmax one); reflexivity.
Defined.

(** C5 fails as stated.  The sentinel is not an infinity: [min] starts
    strictly below +inf and [max] strictly above -inf, so merging the
    point at +inf leaves [min] at [FLT_MAX].  And one merge need not make
    the box valid: merging a NaN point, or another fresh box, does not. *)
Lemma BBox_new_not_infinite_counterexample :
  (x (min BBox_new) <> pinf /\ ltb (x (min BBox_new)) pinf = true) /\
  (x (max BBox_new) <> ninf /\ ltb ninf (x (max BBox_new)) = true) /\
  min (merge_point BBox_new (vec4f_splat pinf)) = vec4f_splat FLT_MAX /\
  valid (merge_point BBox_new Samples.nan_point) = false /\
  valid (merge BBox_new BBox_new) = false.
Proof.
  repeat split; try reflexivity; discriminate.
Qed.

(** ** [transformed] *)

Lemma corners_by_flags (b : BBox) :
  corners b =
  map (fun i => corner b (Nat.testbit i 0) (Nat.testbit i 1)
                         (Nat.testbit i 2) (Nat.testbit i 3))
      (seq 0 16).
Proof. reflexivity. Qed.

(** The loop visits [box[i]], ..., [box[i + n - 1]] in order. *)
Lemma transformed_loop_fold (matrix : mat4f) (box : list vec4f) (n : nat) :
  forall (i : nat) (bbox : BBox),
    i + n <= List.length box ->
    transformed_loop matrix box n i bbox =
    Some (fold_left merge_point
            (map (mat_mul matrix) (firstn n (skipn i box))) bbox).
Proof.
  induction n as [| n IH]; intros i bbox Hlen; simpl.
  - reflexivity.
  - destruct (nth_error box i) as [c |] eqn:E.
    + rewrite IH by lia.
      assert (Hs : skipn i box = c :: skipn (S i) box).
      { clear - E. revert box E. induction i as [| i IHi]; intros [| a box] E;
          try discriminate; simpl in *.
        - now inversion E.
        - now apply IHi. }
      rewrite Hs. reflexivity.
    + apply nth_error_None in E. lia.
Qed.

Lemma fold_merge_point_grows (ps : list vec4f) :
  forall b : BBox,
    nan_free b = true -> forallb vec_nan_free ps = true ->
    nan_free (fold_left merge_point ps b) = true /\
    vec_leb (min (fold_left merge_point ps b)) (min b) = true /\
    vec_leb (max b) (max (fold_left merge_point ps b)) = true /\
    forall p, In p ps -> contains (fold_left merge_point ps b) p = true.
Proof.
  induction ps as [| q ps IH]; intros b Hb Hps; simpl.
  - apply nan_free_iff in Hb as Hb'. destruct Hb' as [Hm HM].
    split; [exact Hb |]. split; [now apply vec_leb_refl |].
    split; [now apply vec_leb_refl |]. intros p [].
  - simpl in Hps. apply andb_true_iff in Hps. destruct Hps as [Hq Hps].
    pose proof (merge_point_nan_free b q Hb Hq) as Hb1.
    destruct (IH (merge_point b q) Hb1 Hps) as (Hn & Hlo & Hhi & Hin).
    apply nan_free_iff in Hb as Hb'. destruct Hb' as [Hm HM].
    split; [exact Hn |]. split; [| split].
    + eapply vec_leb_trans; [exact Hlo |]. simpl. now apply nv_min_le_l.
    + eapply vec_leb_trans; [| exact Hhi]. simpl. now apply nv_max_ge_l.
    + intros p [<- | Hp]; [| now apply Hin].
      apply contains_iff. split.
      * eapply vec_leb_trans; [exact Hlo |]. simpl. now apply nv_min_le_r.
      * eapply vec_leb_trans; [| exact Hhi]. simpl. now apply nv_max_ge_r.
Qed.




(** ** Sizes of the GPU-facing records *)

(** C6.  With [cfg.fp16] set the vertex size is [sizeof(half) * 4], the
    size of [VertexFP16]; with it clear it is [sizeof(float) * 4], the
    size of [Vertex]. *)
Theorem getVertexSize_by_precision (s : CadScene.t) :
  (fp16 (m_cfg s) = true ->
   getVertexSize s = (Layout.sizeof Layout.half * 4)%N /\
   getVertexSize s = Layout.sizeof Layout.VertexFP16) /\
  (fp16 (m_cfg s) = false ->
   getVertexSize s = (Layout.sizeof Layout.TFloat * 4)%N /\
   getVertexSize s = Layout.sizeof Layout.Vertex).
Proof.
  unfold getVertexSize.
  split; intros ->; split; reflexivity.
Qed.

Lemma getVertexSize_by_precision_witness :
  getVertexSize (Samples.scene_with Samples.fp16_cfg) = 8%N /\
  getVertexSize (Samples.scene_with LoadConfig_new) = 16%N.
Proof.
  split.
  - exact (proj1 (proj1 (getVertexSize_by_precision
                           (Samples.scene_with Samples.fp16_cfg)) eq_refl)).
  - exact (proj1 (proj2 (getVertexSize_by_precision
                           (Samples.scene_with LoadConfig_new)) eq_refl)).
Defined.

(** C7.  [Material] and [MatrixNode] each take 256 bytes, whatever their
    fields hold: the size is that of the type, and it is a whole number
    of uniform-buffer ranges. *)
Theorem padded_records_256 :
  (forall m : Material, Layout.sizeof_obj m = 256%N) /\
  (forall n : MatrixNode, Layout.sizeof_obj n = 256%N) /\
  Layout.sizeof Layout.Material = 256%N /\
  Layout.sizeof Layout.MatrixNode = 256%N /\
  (Layout.sizeof Layout.Material mod Layout.UBO_RANGE = 0)%N /\
  (Layout.sizeof Layout.MatrixNode mod Layout.UBO_RANGE = 0)%N.
Proof.
  assert (HM : Layout.sizeof Layout.Material = 256%N) by reflexivity.
  assert (HN : Layout.sizeof Layout.MatrixNode = 256%N) by reflexivity.
  split; [intros m; unfold Layout.sizeof_obj; exact HM |].
  split; [intros n; unfold Layout.sizeof_obj; exact HN |].
  split; [exact HM |]. split; [exact HN |].
  rewrite HM, HN. split; reflexivity.
Qed.

(** C10.  A default-constructed [DrawIndirectElements] has every field
    zero except [primCount], which is 1: one instance of zero indices. *)
Theorem DrawIndirectElements_new_fields :
  count DrawIndirectElements_new = 0%Z /\
  firstIndex DrawIndirectElements_new = 0%Z /\
  baseVertex DrawIndirectElements_new = 0%Z /\
  baseInstance DrawIndirectElements_new = 0%Z /\
  primCount DrawIndirectElements_new = 1%Z.
Proof. repeat split. Qed.

(** ** The lifecycle of a scene *)

Lemma is_empty_iff (s : CadScene.t) :
  is_empty s = true <->
  (m_materials s = [] /\ m_bboxes s = [] /\ m_geometry s = [] /\
   m_matrices s = [] /\ m_objects s = []) /\
  (m_vboSize s = 0 /\ m_iboSize s = 0 /\ m_meshSize s = 0 /\
   m_numGeometryParts s = 0 /\ m_numObjectParts s = 0 /\
   m_numOrigGeometries s = 0 /\ m_numOrigMatrices s = 0 /\
   m_numOrigObjects s = 0)%N.
Proof.
  unfold is_empty.
  destruct (m_materials s), (m_bboxes s), (m_geometry s), (m_matrices s),
    (m_objects s);
    try (split; [discriminate | intros [(? & ? & ? & ? & ?) _]; discriminate]).
  rewrite !andb_true_iff, !N.eqb_eq. tauto.
Qed.

Lemma unload_is_empty (w : World) : is_empty (fst (unload w)) = true.
Proof. reflexivity. Qed.

Lemma unload_empty_noop (w : World) : is_empty (fst w) = true -> unload w = w.
Proof.
  destruct w as [s h]. intros He. apply is_empty_iff in He.
  destruct s; simpl in *.
  destruct He as ((-> & -> & -> & -> & ->) & (-> & -> & -> & -> & -> & -> & -> & ->)).
  reflexivity.
Qed.

(** C9.  [unload] is idempotent: twice in a row leaves the same state as
    once.  After it every container is empty and every size and count
    field is zero, and on a scene that is already empty it changes
    nothing. *)
Theorem unload_idempotent (w : World) :
  unload (unload w) = unload w /\
  is_empty (fst (unload w)) = true /\
  ((m_materials (fst (unload w)) = [] /\ m_bboxes (fst (unload w)) = [] /\
    m_geometry (fst (unload w)) = [] /\ m_matrices (fst (unload w)) = [] /\
    m_objects (fst (unload w)) = []) /\
   (m_vboSize (fst (unload w)) = 0 /\ m_iboSize (fst (unload w)) = 0 /\
    m_meshSize (fst (unload w)) = 0 /\
    m_numGeometryParts (fst (unload w)) = 0 /\
    m_numObjectParts (fst (unload w)) = 0 /\
    m_numOrigGeometries (fst (unload w)) = 0 /\
    m_numOrigMatrices (fst (unload w)) = 0 /\
    m_numOrigObjects (fst (unload w)) = 0)%N) /\
  (is_empty (fst w) = true -> unload w = w).
Proof.
  split; [| split; [| split]].
  - apply unload_empty_noop, unload_is_empty.
  - apply unload_is_empty.
  - apply is_empty_iff, unload_is_empty.
  - apply unload_empty_noop.
Qed.

Lemma unload_idempotent_witness :
  unload SampleScene.fresh = SampleScene.fresh.
Proof.
  exact (proj2 (proj2 (proj2 (unload_idempotent SampleScene.fresh))) eq_refl).
Defined.

(** *** Failing loads *)

Lemma bind_inr {A B : Type} (c : Load A) (k : A -> Load B) (w w' : World) (b : B) :
  bind c k w = (inr b, w') ->
  exists a w1, c w = (inr a, w1) /\ k a w1 = (inr b, w').
Proof.
  unfold bind. destruct (c w) as [[e | a] w1]; [discriminate | eauto].
Qed.

(** C3.  Whatever step of a load fails, and with whatever error (source
    unreadable, source malformed, index overflow, allocation failure),
    [loadCSF] returns false; and whenever [loadCSF] returns false the
    scene is left in the [Empty] state: every container empty, every
    size and count field zero. *)
Theorem loadCSF_failure_rolls_back
        (ext : External) (filename : string) (cfg : LoadConfig)
        (clones cloneaxis : Z) (w : World) :
  (forall e w1, load_steps ext filename cfg clones cloneaxis w = (inl e, w1) ->
                loadCSF ext filename cfg clones cloneaxis w = (false, unload w1)) /\
  (fst (loadCSF ext filename cfg clones cloneaxis w) = false ->
   is_empty (fst (snd (loadCSF ext filename cfg clones cloneaxis w))) = true).
Proof.
  unfold loadCSF.
  destruct (load_steps ext filename cfg clones cloneaxis w) as [[e | u] w1].
  - split.
    + intros e' w1' H. now inversion H.
    + intros _. apply unload_is_empty.
  - split; [intros e' w1' H | intros H]; discriminate H.
Qed.

Lemma loadCSF_failure_rolls_back_witness :
  is_empty
    (fst (snd (loadCSF SampleScene.ext "triangle.csf" LoadConfig_new 2 0
                       (CadScene.new 0 0 0, SampleScene.cramped)))) = true.
Proof.
  exact (proj2 (loadCSF_failure_rolls_back SampleScene.ext "triangle.csf"
                  LoadConfig_new 2 0 (CadScene.new 0 0 0, SampleScene.cramped))
               eq_refl).
Defined.

(** The four failures of section 7 all occur. *)
Example load_fails_unreadable :
  fst (load_steps SampleScene.ext "missing.csf" LoadConfig_new 0 3
                  SampleScene.fresh) = inl SourceUnreadable.
Proof. vm_compute. reflexivity. Qed.

Example load_fails_malformed :
  fst (load_steps SampleScene.ext "garbage.csf" LoadConfig_new 0 3
                  SampleScene.fresh) = inl SourceMalformed /\
  fst (load_steps SampleScene.ext "dangling.csf" LoadConfig_new 0 3
                  SampleScene.fresh) = inl SourceMalformed.
Proof. split; vm_compute; reflexivity. Qed.

Lemma load_fails_index_overflow (ext : External) (cfg : LoadConfig)
      (g : CSF.Geometry) (w : World) :
  (UINT32_MAX < N.of_nat (List.length (CSF.indexSolid g)))%N ->
  load_geometry ext cfg g w = (inl IndexOverflow, w).
Proof.
  intros H. unfold load_geometry, bind, guard.
  apply N.leb_gt in H. rewrite H. reflexivity.
Qed.

(** An allocation that fails half way: the geometry and its first two
    buffers exist when the third request is refused, and the failed load
    leaves neither the geometry nor a live block behind. *)
Example load_fails_allocation :
  let partial := load_steps SampleScene.ext "triangle.csf" LoadConfig_new 0 3
                            (CadScene.new 0 0 0, SampleScene.cramped) in
  let after := loadCSF SampleScene.ext "triangle.csf" LoadConfig_new 0 3
                       (CadScene.new 0 0 0, SampleScene.cramped) in
  fst partial = inl AllocationFailure /\
  List.length (m_geometry (fst (snd partial))) = 1 /\
  Heap.live (snd (snd partial)) = [(1, 48%N); (0, 48%N)] /\
  fst after = false /\
  m_geometry (fst (snd after)) = [] /\
  Heap.live (snd (snd after)) = [] /\
  Heap.available (snd (snd after)) = Heap.available SampleScene.cramped.
Proof. vm_compute. repeat split. Qed.

(** *** Successful loads and clones *)

Lemma add_clones_counts (ext : External) (box : BBox) (axis : Z)
      (ms : list MatrixNode) (os : list Object.t) (n : nat) :
  forall (c : nat) (s : CadScene.t),
    List.length (m_matrices (add_clones ext box axis ms os n c s))
    = List.length (m_matrices s) + n * List.length ms /\
    List.length (m_objects (add_clones ext box axis ms os n c s))
    = List.length (m_objects s) + n * List.length os /\
    m_geometry (add_clones ext box axis ms os n c s) = m_geometry s /\
    m_numOrigGeometries (add_clones ext box axis ms os n c s)
    = m_numOrigGeometries s /\
    m_numOrigMatrices (add_clones ext box axis ms os n c s)
    = m_numOrigMatrices s /\
    m_numOrigObjects (add_clones ext box axis ms os n c s)
    = m_numOrigObjects s.
Proof.
  induction n as [| n IH]; intros c s; simpl.
  - repeat split; lia.
  - destruct (IH (S c)
                (push_clone (map (clone_matrix ext box axis c) ms)
                   (map (clone_object (Z.of_nat (c * List.length ms))
                           (Z.of_nat c * Z.of_N (object_parts os))) os) s))
      as (Hm & Ho & Hg & H1 & H2 & H3).
    rewrite Hm, Ho, Hg, H1, H2, H3. simpl.
    rewrite !length_app, !length_map. repeat split; lia.
Qed.

(** What [finish_load] leaves: the counts recorded before cloning, and
    [clones] further copies of the matrices and objects. *)
Lemma finish_load_counts (ext : External) (clones cloneaxis : Z) (s : CadScene.t) :
  let s' := finish_load ext clones cloneaxis s in
  List.length (m_matrices s') = (Z.to_nat clones + 1) * List.length (m_matrices s) /\
  List.length (m_objects s') = (Z.to_nat clones + 1) * List.length (m_objects s) /\
  m_geometry s' = m_geometry s /\
  m_numOrigGeometries s' = N.of_nat (List.length (m_geometry s)) /\
  m_numOrigMatrices s' = N.of_nat (List.length (m_matrices s)) /\
  m_numOrigObjects s' = N.of_nat (List.length (m_objects s)).
Proof.
  unfold finish_load. cbv zeta.
  match goal with
  | |- context [add_clones ?e ?b ?a ?ms ?os ?n ?c ?s0] =>
      destruct (add_clones_counts e b a ms os n c s0) as (Hm & Ho & Hg & H1 & H2 & H3)
  end.
  simpl in *. rewrite Hm, Ho, Hg, H1, H2, H3.
  repeat split; lia.
Qed.





(** *** What a successful load reads from the file *)

Lemma guard_inr (e : LoadError) (ok : bool) (w w' : World) (u : unit) :
  guard e ok w = (inr u, w') -> ok = true /\ w' = w.
Proof.
  unfold guard. destruct ok; [| discriminate].
  unfold ret. intros H. inversion H. auto.
Qed.

Lemma malloc_inr (size : N) (w w' : World) (p : ptr) :
  malloc size w = (inr p, w') ->
  fst w' = fst w /\
  exists b, p = Some b /\ Heap.malloc (snd w) size = Some (b, snd w').
Proof.
  unfold malloc. destruct (Heap.malloc (snd w) size) as [[b h] |]; [| discriminate].
  intros H. inversion H. simpl. eauto.
Qed.

Lemma modify_scene_inr (f : CadScene.t -> CadScene.t) (w w' : World) (u : unit) :
  modify_scene f w = (inr u, w') -> w' = (f (fst w), snd w).
Proof. unfold modify_scene. intros H. now inversion H. Qed.

Lemma update_last_length {A : Type} (f : A -> A) (l : list A) :
  List.length (update_last f l) = List.length l.
Proof.
  induction l as [| a [| b l] IH]; simpl in *; auto.
Qed.

Ltac sizes_eq := repeat (try lia; f_equal); try lia.

(** Splits a successful run of steps into its steps, and rewrites the
    state after each one. *)
Ltac load_steps_inv H :=
  repeat match type of H with
    | bind _ _ _ = (inr _, _) =>
        let a := fresh "a" in
        let w := fresh "w" in
        let H1 := fresh "Hstep" in
        apply bind_inr in H; destruct H as (a & w & H1 & H)
    end;
  repeat match goal with
    | H1 : guard _ _ _ = (inr _, _) |- _ =>
        apply guard_inr in H1; destruct H1 as [? ?]; subst
    | H1 : modify_scene _ _ = (inr _, _) |- _ =>
        apply modify_scene_inr in H1; subst
    | H1 : get_scene _ = (inr _, _) |- _ =>
        unfold get_scene in H1; inversion H1; subst; clear H1
    | H1 : ret _ _ = (inr _, _) |- _ =>
        unfold ret in H1; inversion H1; subst; clear H1
    end.

Lemma load_meshlets_sizes (ext : External) (cfg : LoadConfig) (g : CSF.Geometry)
      (isize : N) (w w' : World) (n : N) :
  load_meshlets ext cfg g isize w = (inr n, w') -> sizes w' = sizes w.
Proof.
  unfold load_meshlets.
  destruct (build_meshlets ext cfg g) as [mb |]; intros H.
  - load_steps_inv H.
    repeat match goal with
      | H1 : malloc _ _ = (inr _, _) |- _ =>
          apply malloc_inr in H1; destruct H1 as [? _]
      end.
    unfold sizes in *; simpl in *.
    repeat match goal with
      | H1 : fst _ = _ |- _ => rewrite H1; simpl
      end.
    now rewrite !update_last_length.
  - unfold ret in H. now inversion H.
Qed.

Lemma load_geometry_sizes (ext : External) (cfg : LoadConfig) (g : CSF.Geometry)
      (w w' : World) (u : unit) :
  load_geometry ext cfg g w = (inr u, w') ->
  sizes w' = (S (fst (fst (sizes w))), snd (fst (sizes w)), snd (sizes w)).
Proof.
  unfold load_geometry. cbv zeta. intros H.
  load_steps_inv H.
  match goal with
  | H1 : load_meshlets _ _ _ _ _ = (inr _, _) |- _ =>
      apply load_meshlets_sizes in H1
  end.
  repeat match goal with
    | H1 : malloc _ _ = (inr _, _) |- _ =>
        apply malloc_inr in H1; destruct H1 as [? _]
    end.
  unfold sizes in *; simpl in *.
  repeat match goal with
    | H1 : fst _ = _ |- _ => rewrite H1 in *; simpl in *
    end.
  match goal with
  | H1 : (_, _, _) = (_, _, _) |- _ => inversion H1 as [[Hg Hm Ho]]
  end.
  rewrite Hg, Hm, Ho.
  rewrite !update_last_length, length_app. simpl.
  sizes_eq.
Qed.

Lemma load_node_sizes (ext : External) (cfg : LoadConfig) (file : CSF.File)
      (node : CSF.Node) (w w' : World) (u : unit) :
  load_node ext cfg file node w = (inr u, w') ->
  sizes w' = (fst (fst (sizes w)), S (snd (fst (sizes w))),
              snd (sizes w)
              + match CSF.geometryIDX node with Some _ => 1 | None => 0 end).
Proof.
  unfold load_node. intros H.
  destruct (CSF.geometryIDX node) as [gi |]; load_steps_inv H;
    unfold sizes; simpl; rewrite !length_app; simpl;
    sizes_eq.
Qed.

Lemma for_each_geometry_sizes (ext : External) (cfg : LoadConfig)
      (gs : list CSF.Geometry) :
  forall (w w' : World) (u : unit),
    for_each (load_geometry ext cfg) gs w = (inr u, w') ->
    sizes w' = (fst (fst (sizes w)) + List.length gs, snd (fst (sizes w)),
                snd (sizes w)).
Proof.
  induction gs as [| g gs IH]; intros w w' u H; simpl in H.
  - unfold ret in H. inversion H. subst w'.
    destruct (sizes w) as [[a b] c]. simpl. sizes_eq.
  - apply bind_inr in H. destruct H as (? & w1 & H1 & H).
    apply load_geometry_sizes in H1. apply IH in H.
    rewrite H, H1. simpl. sizes_eq.
Qed.

Lemma for_each_node_sizes (ext : External) (cfg : LoadConfig) (file : CSF.File)
      (ns : list CSF.Node) :
  forall (w w' : World) (u : unit),
    for_each (load_node ext cfg file) ns w = (inr u, w') ->
    sizes w' = (fst (fst (sizes w)), snd (fst (sizes w)) + List.length ns,
                snd (sizes w) + object_nodes ns).
Proof.
  induction ns as [| n ns IH]; intros w w' u H; simpl in H.
  - unfold ret in H. inversion H. subst w'.
    destruct (sizes w) as [[a b] c]. unfold object_nodes. simpl.
    sizes_eq.
  - apply bind_inr in H. destruct H as (? & w1 & H1 & H).
    apply load_node_sizes in H1. apply IH in H.
    rewrite H, H1. unfold object_nodes. simpl.
    destruct (CSF.geometryIDX n); simpl; sizes_eq.
Qed.

(** Loading into an empty scene: the pre-clone counts are those of the
    file, one geometry per geometry, one matrix per node and one object
    per node that carries a geometry. *)
Lemma loadCSF_counts_of_file
      (ext : External) (filename : string) (cfg : LoadConfig)
      (clones cloneaxis : Z) (w w' : World) (file : CSF.File) :
  is_empty (fst w) = true ->
  read_csf ext filename = CSF.Parsed file ->
  loadCSF ext filename cfg clones cloneaxis w = (true, w') ->
  m_numOrigGeometries (fst w') = N.of_nat (List.length (CSF.geometries file)) /\
  m_numOrigMatrices (fst w') = N.of_nat (List.length (CSF.nodes file)) /\
  m_numOrigObjects (fst w') = N.of_nat (object_nodes (CSF.nodes file)).
Proof.
  intros He Hfile. unfold loadCSF.
  destruct (load_steps ext filename cfg clones cloneaxis w) as [[e | u] w1] eqn:E;
    [discriminate |].
  intros H. inversion H. subst w1. clear H.
  unfold load_steps in E. rewrite Hfile in E.
  apply bind_inr in E. destruct E as (? & w1 & H1 & E).
  apply bind_inr in E. destruct E as (? & w2 & H2 & E).
  apply bind_inr in E. destruct E as (? & w3 & H3 & E).
  apply bind_inr in E. destruct E as (? & w4 & H4 & E).
  apply modify_scene_inr in H1, H2, E. subst w1 w2 w'.
  apply for_each_geometry_sizes in H3. apply for_each_node_sizes in H4.
  apply is_empty_iff in He. destruct He as ((_ & _ & Hg & Hm & Ho) & _).
  unfold sizes in H3, H4. simpl in H3. rewrite Hg, Hm, Ho in H3. simpl in H3.
  rewrite H3 in H4. simpl in H4. inversion H4 as [[Hg4 Hm4 Ho4]].
  destruct (finish_load_counts ext clones cloneaxis (fst w4))
    as (_ & _ & _ & H1' & H2' & H3').
  cbn [fst]. rewrite H1', H2', H3', Hg4, Hm4, Ho4. auto.
Qed.

(** ** The heap's books

    Every buffer a load allocates is owned by a geometry of the scene
    from the moment it exists, so that [unload] gives back exactly what
    was taken, after a load that succeeded and after one that failed. *)

Lemma size_of_In (blocks : list (nat * N)) (b : nat) (n : N) :
  NoDup (map fst blocks) -> In (b, n) blocks -> Heap.size_of blocks b = Some n.
Proof.
  induction blocks as [| [b' n'] blocks IH]; simpl; intros Hnd Hin; [easy |].
  inversion Hnd as [| ? ? Hnotin Hnd']; subst.
  destruct (Nat.eqb_spec b' b) as [-> | Hne].
  - destruct Hin as [Heq | Hin]; [now inversion Heq |].
    exfalso. apply Hnotin. apply in_map_iff. now exists (b, n).
  - destruct Hin as [Heq | Hin]; [inversion Heq; congruence | auto].
Qed.

Lemma size_of_app_l (mine rest : list (nat * N)) (b : nat) :
  In b (map fst mine) ->
  Heap.size_of (mine ++ rest) b = Heap.size_of mine b /\
  Heap.remove (mine ++ rest) b = Heap.remove mine b ++ rest.
Proof.
  induction mine as [| [b' n'] mine IH]; simpl; intros Hin; [easy |].
  destruct (Nat.eqb_spec b' b) as [-> | Hne]; [auto |].
  destruct Hin as [Heq | Hin]; [congruence |].
  destruct (IH Hin) as [-> ->]. auto.
Qed.

Lemma remove_perm (blocks : list (nat * N)) (b : nat) (n : N) :
  Heap.size_of blocks b = Some n ->
  Permutation blocks ((b, n) :: Heap.remove blocks b).
Proof.
  induction blocks as [| [b' n'] blocks IH]; simpl; [discriminate |].
  destruct (Nat.eqb_spec b' b) as [-> | Hne]; intros H.
  - inversion H. reflexivity.
  - rewrite perm_swap. apply perm_skip. auto.
Qed.

Lemma sum_perm (l l' : list N) :
  Permutation l l' -> fold_right N.add 0%N l = fold_right N.add 0%N l'.
Proof.
  induction 1; simpl; lia.
Qed.

Lemma free_wf (h : Heap.t) (b : nat) : Heap.wf h -> Heap.wf (Heap.free h b).
Proof.
  unfold Heap.wf, Heap.free. intros [Hnd Hlt].
  destruct (Heap.size_of (Heap.live h) b) as [n |] eqn:E; [| auto].
  simpl. pose proof (remove_perm _ _ _ E) as Hp.
  apply (Permutation_map fst) in Hp. simpl in Hp.
  split.
  - eapply Permutation_NoDup in Hnd; [| exact Hp]. now inversion Hnd.
  - eapply Permutation_Forall in Hlt; [| exact Hp]. now inversion Hlt.
Qed.

Lemma balanced_free (live0 : list (nat * N)) (avail0 : N)
      (b : nat) (bs : list nat) (h : Heap.t) :
  balanced live0 avail0 (b :: bs) h -> balanced live0 avail0 bs (Heap.free h b).
Proof.
  intros (Hwf & mine & Hl & Hp & Ha).
  split; [now apply free_wf |].
  assert (Hin : In b (map fst mine)).
  { eapply Permutation_in; [symmetry; exact Hp | now left]. }
  destruct (size_of_app_l mine live0 b Hin) as [Hs Hr].
  apply in_map_iff in Hin. destruct Hin as ([b' n] & Hb & Hin). simpl in Hb. subst b'.
  assert (Hnd : NoDup (map fst mine)).
  { destruct Hwf as [Hnd _]. rewrite Hl, map_app in Hnd.
    now apply NoDup_app_remove_r in Hnd. }
  pose proof (size_of_In mine b n Hnd Hin) as Hsz.
  exists (Heap.remove mine b).
  unfold Heap.free. rewrite Hl, Hs, Hsz, Hr. simpl.
  pose proof (remove_perm mine b n Hsz) as Hpm.
  split; [reflexivity |]. split.
  - apply (Permutation_map fst) in Hpm. simpl in Hpm.
    apply Permutation_cons_inv with b.
    now rewrite <- Hpm.
  - apply (Permutation_map snd) in Hpm. apply sum_perm in Hpm.
    simpl in Hpm. lia.
Qed.

Lemma balanced_free_all (live0 : list (nat * N)) (avail0 : N) (bs : list nat) :
  forall h : Heap.t,
    balanced live0 avail0 bs h ->
    Heap.live (fold_left Heap.free bs h) = live0 /\
    Heap.available (fold_left Heap.free bs h) = avail0 /\
    Heap.wf (fold_left Heap.free bs h).
Proof.
  induction bs as [| b bs IH]; intros h Hb; simpl.
  - destruct Hb as (Hwf & mine & Hl & Hp & Ha).
    symmetry in Hp. apply Permutation_nil in Hp. apply map_eq_nil in Hp.
    subst mine. simpl in *.
    split; [exact Hl |]. split; [lia | exact Hwf].
  - apply IH. now apply balanced_free.
Qed.

Lemma balanced_malloc (live0 : list (nat * N)) (avail0 : N) (bs : list nat)
      (h h' : Heap.t) (size : N) (b : nat) :
  balanced live0 avail0 bs h ->
  Heap.malloc h size = Some (b, h') ->
  balanced live0 avail0 (bs ++ [b]) h'.
Proof.
  intros ((Hnd & Hlt) & mine & Hl & Hp & Ha). unfold Heap.malloc.
  destruct (size <=? Heap.available h)%N eqn:E; [| discriminate].
  intros H. inversion H. subst b h'. clear H. apply N.leb_le in E.
  split; [split |]; simpl.
  - constructor; [| exact Hnd].
    intros Hin. rewrite Forall_forall in Hlt. apply Hlt in Hin. lia.
  - constructor; [lia |]. eapply Forall_impl; [| exact Hlt].
    simpl. intros; lia.
  - exists ((Heap.next h, size) :: mine). simpl. rewrite Hl.
    split; [reflexivity |]. split.
    + rewrite <- Permutation_cons_append. now apply perm_skip.
    + lia.
Qed.

Lemma Geometry_destroy_frees (g : Geometry.t) (h : Heap.t) :
  Geometry_destroy g h = fold_left Heap.free (geometry_blocks g) h.
Proof.
  unfold Geometry_destroy, MeshletTopology_destroy, geometry_blocks.
  destruct (Geometry.vboData g), (Geometry.aboData g), (Geometry.iboData g),
    (MeshletTopology.primData (Geometry.meshlet g)),
    (MeshletTopology.descData (Geometry.meshlet g)); reflexivity.
Qed.

Lemma unload_frees_owned (w : World) :
  snd (unload w) = fold_left Heap.free (owned (fst w)) (snd w).
Proof.
  unfold unload, owned. simpl.
  generalize (snd w). induction (m_geometry (fst w)) as [| g gs IH]; intros h; simpl.
  - reflexivity.
  - rewrite fold_left_app, IH, Geometry_destroy_frees. reflexivity.
Qed.

Section Books.

Variable live0 : list (nat * N).
Variable avail0 : N.

Local Abbreviation keeps := (keeps_order live0 avail0).
Local Abbreviation ok := (in_order live0 avail0).

Lemma keeps_bind {A B : Type} (c : Load A) (k : A -> Load B) :
  keeps c -> (forall a, keeps (k a)) -> keeps (bind c k).
Proof.
  intros Hc Hk w Hw. unfold bind. specialize (Hc w Hw).
  destruct (c w) as [[e | a] w1]; simpl in *; [exact Hc | now apply Hk].
Qed.

Lemma keeps_ret {A : Type} (a : A) : keeps (ret a).
Proof. intros w Hw. exact Hw. Qed.

Lemma keeps_fail {A : Type} (e : LoadError) : keeps (@fail A e).
Proof. intros w Hw. exact Hw. Qed.

Lemma keeps_guard (e : LoadError) (b : bool) : keeps (guard e b).
Proof. destruct b; [apply keeps_ret | apply keeps_fail]. Qed.

Lemma keeps_modify (f : CadScene.t -> CadScene.t) :
  (forall s, m_geometry (f s) = m_geometry s) -> keeps (modify_scene f).
Proof.
  intros Hf [s h] Hw. unfold in_order, owned in *. simpl in *. now rewrite Hf.
Qed.

Lemma keeps_for_each {A : Type} (f : A -> Load unit) (l : list A) :
  (forall a, keeps (f a)) -> keeps (for_each f l).
Proof.
  intros Hf. induction l as [| a l IH]; simpl.
  - apply keeps_ret.
  - apply keeps_bind; auto.
Qed.

Lemma update_last_app {A : Type} (f : A -> A) (l : list A) (a : A) :
  update_last f (l ++ [a]) = l ++ [f a].
Proof.
  induction l as [| b l IH]; simpl; [reflexivity |].
  rewrite IH. destruct (l ++ [a]) eqn:E; [| reflexivity].
  now destruct l.
Qed.

(** Runs the steps of one geometry along every path: each allocation
    either fails, which ends the load, or goes on. *)
Ltac run_load :=
  repeat match goal with
    | |- context [match Heap.malloc ?h0 ?n with _ => _ end] =>
        let E := fresh "E" in
        destruct (Heap.malloc h0 n) as [[? ?] |] eqn:E; cbn [fst snd]
    | |- context [match build_meshlets ?e ?c ?g with _ => _ end] =>
        destruct (build_meshlets e c g); cbn [fst snd]
    | |- context [if (?a <=? ?b)%N then _ else _] =>
        destruct (a <=? b)%N; cbn [fst snd]
    | |- context [if geometry_wellformed ?g then _ else _] =>
        destruct (geometry_wellformed g); cbn [fst snd]
    end.

Lemma load_geometry_keeps (ext : External) (cfg : LoadConfig) (g : CSF.Geometry) :
  keeps (load_geometry ext cfg g).
Proof.
  intros [s h] Hw. unfold load_geometry. cbv zeta.
  unfold load_meshlets, bind, guard, get_scene, modify_scene, malloc, ret, fail.
  cbn [fst snd]. run_load.
  all: unfold in_order in *; cbn [fst snd] in *.
  all: repeat match goal with
         | E : Heap.malloc ?h0 _ = Some (_, _), H : balanced _ _ _ ?h0 |- _ =>
             apply (balanced_malloc _ _ _ _ _ _ _ H) in E
         end.
  all: match goal with
       | H : balanced _ _ ?bs ?hk |- balanced _ _ (owned ?S) ?hk =>
           replace (owned S) with bs; [exact H |]
       end.
  all: unfold owned; cbn [m_geometry commit_geometry update_last_geometry push_geometry];
    rewrite ?update_last_app, ?flat_map_app; cbn;
    rewrite <- ?app_assoc, ?app_nil_r; reflexivity.
Qed.

Lemma load_node_keeps (ext : External) (cfg : LoadConfig) (file : CSF.File)
      (node : CSF.Node) :
  keeps (load_node ext cfg file node).
Proof.
  unfold load_node.
  apply keeps_bind; [intros w Hw; exact Hw | intros s].
  apply keeps_bind; [apply keeps_guard | intros _].
  apply keeps_bind; [now apply keeps_modify | intros _].
  destruct (CSF.geometryIDX node); [now apply keeps_modify | apply keeps_ret].
Qed.

Lemma add_clones_geometry (ext : External) (box : BBox) (axis : Z)
      (ms : list MatrixNode) (os : list Object.t) (n : nat) :
  forall (c : nat) (s : CadScene.t),
    m_geometry (add_clones ext box axis ms os n c s) = m_geometry s.
Proof.
  intros c s. now destruct (add_clones_counts ext box axis ms os n c s)
    as (_ & _ & H & _).
Qed.

Lemma load_steps_keeps (ext : External) (filename : string) (cfg : LoadConfig)
      (clones cloneaxis : Z) :
  keeps (load_steps ext filename cfg clones cloneaxis).
Proof.
  unfold load_steps.
  destruct (read_csf ext filename) as [| | file]; try apply keeps_fail.
  apply keeps_bind; [now apply keeps_modify | intros _].
  apply keeps_bind; [now apply keeps_modify | intros _].
  apply keeps_bind; [apply keeps_for_each, load_geometry_keeps | intros _].
  apply keeps_bind; [apply keeps_for_each, load_node_keeps | intros _].
  apply keeps_modify. intros s. unfold finish_load. cbv zeta.
  cbn [m_geometry set_bboxInstanced]. now rewrite add_clones_geometry.
Qed.

End Books.

(** Whatever a load took from the heap, [unload] gives back: after a
    failed [loadCSF] into an empty scene, and after [unload] following a
    successful one, the live blocks and the bytes available are what they
    were before the load. *)
Lemma loadCSF_releases
      (ext : External) (filename : string) (cfg : LoadConfig)
      (clones cloneaxis : Z) (w : World) :
  is_empty (fst w) = true -> Heap.wf (snd w) ->
  let r := loadCSF ext filename cfg clones cloneaxis w in
  let w' := if fst r then unload (snd r) else snd r in
  Heap.live (snd w') = Heap.live (snd w) /\
  Heap.available (snd w') = Heap.available (snd w) /\
  is_empty (fst w') = true.
Proof.
  intros He Hwf. cbv zeta.
  assert (H0 : in_order (Heap.live (snd w)) (Heap.available (snd w)) w).
  { apply is_empty_iff in He. destruct He as ((_ & _ & Hg & _) & _).
    unfold in_order, owned. rewrite Hg. simpl.
    split; [exact Hwf |]. exists []. simpl. repeat split; [constructor | lia]. }
  pose proof (load_steps_keeps _ _ ext filename cfg clones cloneaxis w H0) as H1.
  unfold loadCSF.
  destruct (load_steps ext filename cfg clones cloneaxis w) as [[e | u] w1];
    cbn [fst snd] in *;
    rewrite unload_frees_owned;
    destruct (balanced_free_all _ _ _ _ H1) as (Hl & Ha & _);
    auto using unload_is_empty.
Qed.

(** *** The scenarios of the specification *)

(** One triangle, default configuration, no clones: one object, three
    indices in one part, and [m_bbox] the tight box of the triangle. *)
Example load_single_triangle :
  let r := loadCSF SampleScene.ext "triangle.csf" LoadConfig_new 0 3
                   SampleScene.fresh in
  fst r = true /\
  List.length (m_objects (fst (snd r))) = 1 /\
  map Geometry.numIndexSolid (m_geometry (fst (snd r))) = [3%Z] /\
  map (fun g => List.length (Geometry.parts g)) (m_geometry (fst (snd r))) = [1] /\
  m_bbox (fst (snd r))
  = mkBBox (mkvec4f zero zero zero one) (mkvec4f one one zero one).
Proof. vm_compute. repeat split. Qed.

(** The same with two clones: three objects on one shared geometry. *)
Example load_triangle_two_clones :
  List.length (m_objects (fst SampleScene.loaded)) = 3 /\
  List.length (m_geometry (fst SampleScene.loaded)) = 1 /\
  map Object.geometryIndex (m_objects (fst SampleScene.loaded)) = [0; 0; 0]%Z /\
  map Object.matrixIndex (m_objects (fst SampleScene.loaded)) = [1; 3; 5]%Z.
Proof. vm_compute. repeat split. Qed.

(** More than 65535 vertices: wide indices, whatever [allowShorts] says. *)
Lemma many_vertices_wide_indices (cfg : LoadConfig) (s : CadScene.t)
      (g : CSF.Geometry) :
  (65535 < N.of_nat (List.length (CSF.vertex g)))%N ->
  Geometry.useShorts (new_geometry cfg s g) = 0%Z /\
  Geometry.iboSize (new_geometry cfg s g)
  = (4 * N.of_nat (List.length (CSF.indexSolid g)))%N.
Proof.
  intros H. unfold new_geometry, use_shorts. cbv zeta. cbn.
  apply N.leb_gt in H. rewrite H, andb_false_r. auto.
Qed.

(** The sample values are floats a machine can hold. *)
Example samples_are_binary32 :
  forallb F32.valid
    [zero; nzero; one; of_Z 2; of_Z 3; of_Z (-3); of_Z (-5); of_Z (-7);
     FLT_MAX; opp FLT_MAX; pinf; ninf; nan] = true.
Proof. reflexivity. Qed.

(* ================================================================== *)
(** * Part III: further properties of the code *)
(* ================================================================== *)

(** ** More about [merge] *)

Lemma nv_min_scalar_idem (a p : float) :
  nv_min_scalar a a = a /\
  nv_min_scalar (nv_min_scalar a p) p = nv_min_scalar a p.
Proof.
  unfold nv_min_scalar. split.
  - now destruct (ltb a a).
  - destruct (ltb a p) eqn:E; [now rewrite E | now destruct (ltb p p)].
Qed.

Lemma nv_max_scalar_idem (a p : float) :
  nv_max_scalar a a = a /\
  nv_max_scalar (nv_max_scalar a p) p = nv_max_scalar a p.
Proof.
  unfold nv_max_scalar. split.
  - now destruct (gtb a a).
  - destruct (gtb a p) eqn:E; [now rewrite E | now destruct (gtb p p)].
Qed.

Lemma nv_min_idem (a p : vec4f) :
  nv_min a a = a /\ nv_min (nv_min a p) p = nv_min a p.
Proof.
  destruct a as [ax ay az aw], p as [px py pz pw]. unfold nv_min; simpl.
  destruct (nv_min_scalar_idem ax px) as [-> ->],
    (nv_min_scalar_idem ay py) as [-> ->],
    (nv_min_scalar_idem az pz) as [-> ->],
    (nv_min_scalar_idem aw pw) as [-> ->]. auto.
Qed.

Lemma nv_max_idem (a p : vec4f) :
  nv_max a a = a /\ nv_max (nv_max a p) p = nv_max a p.
Proof.
  destruct a as [ax ay az aw], p as [px py pz pw]. unfold nv_max; simpl.
  destruct (nv_max_scalar_idem ax px) as [-> ->],
    (nv_max_scalar_idem ay py) as [-> ->],
    (nv_max_scalar_idem az pz) as [-> ->],
    (nv_max_scalar_idem aw pw) as [-> ->]. auto.
Qed.

(** X1.  Merging is idempotent for every box and point, NaN included:
    a box merged into itself is unchanged, and merging the same box or
    the same point a second time changes nothing. *)
Theorem merge_idempotent (a b : BBox) (p : vec4f) :
  merge b b = b /\
  merge (merge a b) b = merge a b /\
  merge_point (merge_point a p) p = merge_point a p.
Proof.
  destruct a as [am aM], b as [bm bM]. unfold merge, merge_point; simpl.
  destruct (nv_min_idem bm bm) as [-> _], (nv_max_idem bM bM) as [-> _].
  destruct (nv_min_idem am bm) as [_ ->], (nv_max_idem aM bM) as [_ ->].
  destruct (nv_min_idem am p) as [_ ->], (nv_max_idem aM p) as [_ ->].
  auto.
Qed.

Lemma nv_min_scalar_absorb (a p : float) :
  leb a p = true -> eqb (nv_min_scalar a p) a = true.
Proof. float_order. Qed.

Lemma nv_max_scalar_absorb (a p : float) :
  leb p a = true -> eqb (nv_max_scalar a p) a = true.
Proof. float_order. Qed.

Lemma nv_min_absorb (a p : vec4f) :
  vec_leb a p = true -> vec_eqb (nv_min a p) a = true.
Proof. intros; vec_split; repeat split; now apply nv_min_scalar_absorb. Qed.

Lemma nv_max_absorb (a p : vec4f) :
  vec_leb p a = true -> vec_eqb (nv_max a p) a = true.
Proof. intros; vec_split; repeat split; now apply nv_max_scalar_absorb. Qed.

(** X2.  Merging what is already inside changes nothing: a point the box
    contains, or a box whose bounds lie within the box's bounds, leaves
    [min] and [max] equal to what they were in every component (as [==]
    compares floats). *)
Theorem merge_absorbs_inside (b c : BBox) (p : vec4f) :
  (contains b p = true -> box_eqb (merge_point b p) b = true) /\
  (vec_leb (min b) (min c) = true -> vec_leb (max c) (max b) = true ->
   box_eqb (merge b c) b = true).
Proof.
  split.
  - intros H. apply contains_iff in H. destruct H as [Hl Hu].
    apply box_eqb_iff; simpl.
    split; [now apply nv_min_absorb | now apply nv_max_absorb].
  - intros Hl Hu. apply box_eqb_iff; simpl.
    split; [now apply nv_min_absorb | now apply nv_max_absorb].
Qed.

Lemma merge_absorbs_inside_witness :
  box_eqb (merge_point Samples.unit_box Samples.ones) Samples.unit_box = true /\
  box_eqb (merge Samples.unit_box Samples.unit_box) Samples.unit_box = true.
Proof.
  destruct (merge_absorbs_inside Samples.unit_box Samples.unit_box Samples.ones)
    as [Hp Hb].
  split; [apply Hp | apply Hb]; reflexivity.
Defined.

(** X3.  Merging never shrinks a valid box and keeps it valid: when [a]
    is valid and what is merged in has no NaN component, the new [min]
    is at or below the old one, the new [max] at or above, and the
    result is again a valid box. *)
Theorem merge_grows_valid (a b : BBox) (p : vec4f) :
  valid a = true ->
  (nan_free b = true ->
   vec_leb (min (merge a b)) (min a) = true /\
   vec_leb (max a) (max (merge a b)) = true /\
   valid (merge a b) = true) /\
  (vec_nan_free p = true ->
   vec_leb (min (merge_point a p)) (min a) = true /\
   vec_leb (max a) (max (merge_point a p)) = true /\
   valid (merge_point a p) = true).
Proof.
  intros Ha. pose proof (valid_nan_free a Ha) as Hn.
  apply nan_free_iff in Hn. destruct Hn as [Hm HM].
  assert (Hgen : forall q r, vec_nan_free q = true -> vec_nan_free r = true ->
            vec_leb (nv_min (min a) q) (min a) = true /\
            vec_leb (max a) (nv_max (max a) r) = true /\
            vec_leb (nv_min (min a) q) (nv_max (max a) r) = true).
  { intros q r Hq Hr.
    assert (H1 : vec_leb (nv_min (min a) q) (min a) = true) by now apply nv_min_le_l.
    assert (H2 : vec_leb (max a) (nv_max (max a) r) = true) by now apply nv_max_ge_l.
    repeat split; auto.
    apply vec_leb_trans with (min a); [exact H1 |].
    now apply vec_leb_trans with (max a). }
  split.
  - intros Hb. apply nan_free_iff in Hb. destruct Hb as [Hbm HbM].
    unfold valid; simpl. now apply Hgen.
  - intros Hp. unfold valid; simpl. now apply Hgen.
Qed.

Lemma merge_grows_valid_witness :
  valid (merge Samples.unit_box Samples.inverted_box) = true /\
  valid (merge_point Samples.unit_box Samples.minus_three) = true.
Proof.
  destruct (merge_grows_valid Samples.unit_box Samples.inverted_box
              Samples.minus_three eq_refl) as [Hb Hp].
  split; [apply Hb | apply Hp]; reflexivity.
Defined.

(** ** The fresh box as the start of an accumulation *)

Lemma leb_ltb_false (a b : float) : leb a b = true -> ltb b a = false.
Proof. float_order. Qed.

Lemma finite_iff (a : float) :
  finite a = true <-> F32.valid a = true /\ is_finite a = true.
Proof. unfold finite. apply andb_true_iff. Qed.

Lemma finite_not_nan (a : float) : finite a = true -> is_nan a = false.
Proof. intros H. apply finite_iff in H. destruct H as [_ H]. now destruct a. Qed.

(** Against [FLT_MAX] and [-FLT_MAX], in either order, [nv_min] and
    [nv_max] return the finite operand. *)
Lemma sentinel_scalar (a : float) :
  finite a = true ->
  nv_min_scalar FLT_MAX a = a /\ nv_min_scalar a FLT_MAX = a /\
  nv_max_scalar (opp FLT_MAX) a = a /\ nv_max_scalar a (opp FLT_MAX) = a.
Proof.
  intros H. apply finite_iff in H. destruct H as [Hv Hf].
  destruct (FLT_MAX_largest a Hv Hf) as [Hle Hge].
  unfold nv_min_scalar, nv_max_scalar. rewrite !gtb_ltb.
  rewrite (leb_ltb_false _ _ Hle), (leb_ltb_false _ _ Hge).
  repeat split.
  - destruct (ltb a FLT_MAX) eqn:E; [reflexivity |].
    assert (He : eqb FLT_MAX a = true).
    { rewrite eqb_leb, Hle. apply ltb_false_leb in E; [now rewrite E | |];
        [now destruct a | reflexivity]. }
    apply eqb_same in He. destruct He as [He | [He _]]; [exact He | discriminate].
  - destruct (ltb (opp FLT_MAX) a) eqn:E; [reflexivity |].
    assert (He : eqb (opp FLT_MAX) a = true).
    { rewrite eqb_leb, Hge. apply ltb_false_leb in E; [now rewrite E | |];
        [reflexivity | now destruct a]. }
    apply eqb_same in He. destruct He as [He | [He _]]; [exact He | discriminate].
Qed.

Lemma vec_finite_iff (a : vec4f) :
  vec_finite a = true <->
  finite (x a) = true /\ finite (y a) = true /\
  finite (z a) = true /\ finite (w a) = true.
Proof. unfold vec_finite. rewrite !andb_true_iff. tauto. Qed.

Lemma vec_finite_nan_free (a : vec4f) :
  vec_finite a = true -> vec_nan_free a = true.
Proof.
  intros H. apply vec_finite_iff in H. destruct H as (? & ? & ? & ?).
  apply vec_nan_free_true. auto using finite_not_nan.
Qed.

Lemma sentinel_vec (a : vec4f) :
  vec_finite a = true ->
  nv_min (vec4f_splat FLT_MAX) a = a /\ nv_min a (vec4f_splat FLT_MAX) = a /\
  nv_max (vec4f_splat (opp FLT_MAX)) a = a /\
  nv_max a (vec4f_splat (opp FLT_MAX)) = a.
Proof.
  intros H. apply vec_finite_iff in H. destruct H as (Hx & Hy & Hz & Hw).
  destruct a as [ax ay az aw]. unfold nv_min, nv_max, vec4f_splat.
  cbn [x y z w] in *.
  destruct (sentinel_scalar ax Hx) as (-> & -> & -> & ->),
    (sentinel_scalar ay Hy) as (-> & -> & -> & ->),
    (sentinel_scalar az Hz) as (-> & -> & -> & ->),
    (sentinel_scalar aw Hw) as (-> & -> & -> & ->).
  auto.
Qed.

Lemma merge_point_fresh (p : vec4f) :
  vec_finite p = true -> merge_point BBox_new p = mkBBox p p.
Proof.
  intros Hp. unfold merge_point, BBox_new. cbn [min max].
  destruct (sentinel_vec p Hp) as (-> & _ & -> & _). reflexivity.
Qed.

(** X4.  The fresh box is neutral for [merge] on finite boxes: merging a
    box of finite floats into a fresh box, or a fresh box into it, gives
    exactly that box; and merging one finite point into a fresh box
    gives the box whose [min] and [max] are both that point. *)
Theorem BBox_new_neutral (b : BBox) (p : vec4f) :
  (vec_finite (min b) = true -> vec_finite (max b) = true ->
   merge BBox_new b = b /\ merge b BBox_new = b) /\
  (vec_finite p = true -> merge_point BBox_new p = mkBBox p p).
Proof.
  split.
  - intros Hm HM. destruct b as [bm bM]. unfold merge, BBox_new.
    cbn [min max] in *.
    destruct (sentinel_vec bm Hm) as (-> & -> & _ & _).
    destruct (sentinel_vec bM HM) as (_ & _ & -> & ->). auto.
  - apply merge_point_fresh.
Qed.

Lemma BBox_new_neutral_witness :
  merge BBox_new Samples.unit_box = Samples.unit_box /\
  merge Samples.unit_box BBox_new = Samples.unit_box /\
  merge_point BBox_new Samples.ones = mkBBox Samples.ones Samples.ones.
Proof.
  destruct (BBox_new_neutral Samples.unit_box Samples.ones) as [Hb Hp].
  destruct (Hb eq_refl eq_refl) as [H1 H2].
  exact (conj H1 (conj H2 (Hp eq_refl))).
Defined.

Lemma fold_merge_point_least (ps : list vec4f) (c : BBox) :
  (forall p, In p ps -> contains c p = true) ->
  forall b : BBox,
    vec_leb (min c) (min b) = true -> vec_leb (max b) (max c) = true ->
    vec_leb (min c) (min (fold_left merge_point ps b)) = true /\
    vec_leb (max (fold_left merge_point ps b)) (max c) = true.
Proof.
  induction ps as [| q ps IH]; intros Hc b Hl Hu; simpl; [auto |].
  assert (Hq : contains c q = true) by (apply Hc; now left).
  apply contains_iff in Hq. destruct Hq as [Hql Hqu].
  apply IH.
  - intros p Hp. apply Hc. now right.
  - simpl. now apply nv_min_glb.
  - simpl. now apply nv_max_lub.
Qed.

(** X5.  Merging the points of a non-empty list of finite points one
    after the other into a fresh box gives their tight bounding box: it
    is valid, it contains every point of the list, and every box that
    contains them all reaches at least as far in both directions. *)
Theorem merge_points_tight (p0 : vec4f) (ps : list vec4f) :
  forallb vec_finite (p0 :: ps) = true ->
  valid (fold_left merge_point (p0 :: ps) BBox_new) = true /\
  (forall p, In p (p0 :: ps) ->
             contains (fold_left merge_point (p0 :: ps) BBox_new) p = true) /\
  (forall c : BBox,
     (forall p, In p (p0 :: ps) -> contains c p = true) ->
     vec_leb (min c) (min (fold_left merge_point (p0 :: ps) BBox_new)) = true /\
     vec_leb (max (fold_left merge_point (p0 :: ps) BBox_new)) (max c) = true).
Proof.
  intros Hf.
  assert (Hnan : forallb vec_nan_free (p0 :: ps) = true).
  { rewrite forallb_forall in *. intros p Hp. apply vec_finite_nan_free. auto. }
  destruct (fold_merge_point_grows (p0 :: ps) BBox_new eq_refl Hnan)
    as (_ & _ & _ & Hin).
  split; [| split; [exact Hin |]].
  - pose proof (Hin p0 (or_introl eq_refl)) as H0.
    apply contains_iff in H0. destruct H0 as [Hl Hu].
    unfold valid. now apply vec_leb_trans with p0.
  - intros c Hc.
    assert (Hp0 : vec_finite p0 = true).
    { simpl in Hf. now apply andb_true_iff in Hf. }
    cbn [fold_left].
    rewrite (merge_point_fresh p0 Hp0).
    assert (H0 : contains c p0 = true) by (apply Hc; now left).
    apply contains_iff in H0. destruct H0 as [Hl Hu].
    apply fold_merge_point_least; auto.
    intros p Hp. apply Hc. now right.
Qed.

Lemma merge_points_tight_witness :
  valid (fold_left merge_point [Samples.ones; Samples.minus_three] BBox_new) = true /\
  contains (fold_left merge_point [Samples.ones; Samples.minus_three] BBox_new)
           Samples.minus_three = true.
Proof.
  destruct (merge_points_tight Samples.ones [Samples.minus_three] eq_refl)
    as (Hv & Hin & _).
  split; [exact Hv | apply Hin; right; left; reflexivity].
Defined.

Lemma nv_min_scalar_corners (a m M : float) :
  is_nan a = false -> leb m M = true ->
  eqb (nv_min_scalar (nv_min_scalar a m) M) (nv_min_scalar a m) = true.
Proof.
  intros Ha Hm. apply nv_min_scalar_absorb.
  apply leb_trans with m; [| exact Hm].
  apply nv_min_scalar_le_r. now destruct (leb_not_nan _ _ Hm).
Qed.

Lemma nv_max_scalar_corners (a m M : float) :
  is_nan a = false -> leb m M = true ->
  eqb (nv_max_scalar (nv_max_scalar a m) M) (nv_max_scalar a M) = true.
Proof.
  intros Ha Hm. destruct (leb_not_nan _ _ Hm) as [Hnm HnM].
  rewrite eqb_leb. apply andb_true_iff. split.
  - apply nv_max_scalar_lub; [apply nv_max_scalar_lub |].
    + now apply nv_max_scalar_ge_l.
    + apply leb_trans with M; [exact Hm | now apply nv_max_scalar_ge_r].
    + now apply nv_max_scalar_ge_r.
  - apply nv_max_scalar_lub.
    + apply leb_trans with (nv_max_scalar a m); [now apply nv_max_scalar_ge_l |].
      apply nv_max_scalar_ge_l; [now apply nv_max_scalar_nan_free | exact HnM].
    + now apply nv_max_scalar_ge_r.
Qed.

(** X6.  Merging a valid box is the same as merging its two extreme
    corners as points: for a box [a] without NaN components and a valid
    box [b], merging the points [b.min] and then [b.max] into [a] gives
    bounds equal (as [==] compares floats) to those of [a.merge(b)]. *)
Theorem merge_box_as_corner_points (a b : BBox) :
  nan_free a = true -> valid b = true ->
  box_eqb (merge_point (merge_point a (min b)) (max b)) (merge a b) = true.
Proof.
  intros Ha Hb. apply nan_free_iff in Ha. destruct Ha as [Hm HM].
  apply box_eqb_iff. unfold valid in Hb.
  destruct a as [am aM], b as [bm bM]. cbn [min max merge merge_point] in *.
  split; vec_split; repeat split;
    first [now apply nv_min_scalar_corners | now apply nv_max_scalar_corners].
Qed.

Lemma merge_box_as_corner_points_witness :
  box_eqb (merge_point (merge_point Samples.unit_box (min Samples.far_box))
                       (max Samples.far_box))
          (merge Samples.unit_box Samples.far_box) = true.
Proof.
  exact (merge_box_as_corner_points Samples.unit_box Samples.far_box
           eq_refl eq_refl).
Defined.

(** ** [transformed] for every [dim] *)

Lemma dim_cases (dim : Z) :
  (0 <= dim <= 4)%Z -> dim = 0%Z \/ dim = 1%Z \/ dim = 2%Z \/ dim = 3%Z \/ dim = 4%Z.
Proof. lia. Qed.

(** For [0 <= dim <= 4] the loop runs over the first [2^dim] corners. *)
Lemma transformed_fold (A : BBox) (M : mat4f) (dim : Z) :
  (0 <= dim <= 4)%Z ->
  transformed A M dim =
  Some (fold_left merge_point
          (map (mat_mul M) (firstn (Z.to_nat (2 ^ dim)) (corners A))) BBox_new).
Proof.
  intros Hd. unfold transformed.
  assert (Hg : ((0 <=? dim) && (dim <=? 4))%Z = true).
  { apply andb_true_iff. split; apply Z.leb_le; lia. }
  rewrite Hg, Z.shiftl_1_l.
  rewrite transformed_loop_fold; [reflexivity |].
  destruct (dim_cases dim Hd) as [-> | [-> | [-> | [-> | ->]]]]; simpl; lia.
Qed.

(** X7.  For every [dim] from 0 to 4, [transformed] visits the corners
    whose flags beyond the first [dim] axes are clear: with dim = 4 all
    sixteen corners, those drawn from [max.w] included; with dim = 2 the
    four corners at [min.z] and [min.w]; with dim = 0 the corner [min]
    alone.  When no transformed corner it visits has a NaN component,
    the result is a valid box that contains the transform of each of
    them. *)
Theorem transformed_by_dim (A : BBox) (M : mat4f) (dim : Z) :
  (0 <= dim <= 4)%Z ->
  forallb vec_nan_free
          (map (mat_mul M) (firstn (Z.to_nat (2 ^ dim)) (corners A))) = true ->
  exists R : BBox,
    transformed A M dim = Some R /\
    valid R = true /\
    forall hx hy hz hw : bool,
      ((dim < 1)%Z -> hx = false) -> ((dim < 2)%Z -> hy = false) ->
      ((dim < 3)%Z -> hz = false) -> ((dim < 4)%Z -> hw = false) ->
      contains R (mat_mul M (corner A hx hy hz hw)) = true.
Proof.
  intros Hd Hnan. rewrite (transformed_fold A M dim Hd).
  eexists. split; [reflexivity |].
  destruct (fold_merge_point_grows _ BBox_new eq_refl Hnan) as (_ & _ & _ & Hin).
  assert (Hflags : forall hx hy hz hw : bool,
             ((dim < 1)%Z -> hx = false) -> ((dim < 2)%Z -> hy = false) ->
             ((dim < 3)%Z -> hz = false) -> ((dim < 4)%Z -> hw = false) ->
             In (corner A hx hy hz hw)
                (firstn (Z.to_nat (2 ^ dim)) (corners A))).
  { intros hx hy hz hw Hx Hy Hz Hw.
    destruct (dim_cases dim Hd) as [-> | [-> | [-> | [-> | ->]]]];
      try (rewrite Hx by lia); try (rewrite Hy by lia);
      try (rewrite Hz by lia); try (rewrite Hw by lia);
      destruct hx, hy, hz, hw; simpl; tauto. }
  split.
  - pose proof (Hin _ (in_map (mat_mul M) _ _
                         (Hflags false false false false
                            (fun _ => eq_refl) (fun _ => eq_refl)
                            (fun _ => eq_refl) (fun _ => eq_refl)))) as H0.
    apply contains_iff in H0. destruct H0 as [Hl Hu].
    unfold valid. eapply vec_leb_trans; eauto.
  - intros hx hy hz hw Hx Hy Hz Hw. apply Hin, in_map. now apply Hflags.
Qed.

Lemma transformed_by_dim_witness :
  exists R : BBox,
    transformed Samples.unit_box mat_identity 4 = Some R /\
    valid R = true /\
    contains R (mat_mul mat_identity
                  (corner Samples.unit_box true true true true)) = true.
Proof.
  destruct (transformed_by_dim Samples.unit_box mat_identity 4
              ltac:(lia) eq_refl) as (R & HR & Hv & Hin).
  exists R. split; [exact HR |]. split; [exact Hv |].
  apply Hin; intros; lia.
Defined.

(** X8.  With [dim <= 3] the result of [transformed] does not depend on
    [max.w]: two boxes that agree on [min] and on the x, y and z of
    [max] have the same transformed box under every matrix. *)
Theorem transformed_ignores_max_w (A B : BBox) (M : mat4f) (dim : Z) :
  (dim <= 3)%Z ->
  min A = min B ->
  x (max A) = x (max B) -> y (max A) = y (max B) -> z (max A) = z (max B) ->
  transformed A M dim = transformed B M dim.
Proof.
  intros Hd Hm Hx Hy Hz.
  destruct (Z.ltb_spec dim 0) as [Hneg | Hpos].
  - unfold transformed.
    assert (Hg : ((0 <=? dim) && (dim <=? 4))%Z = false).
    { apply andb_false_iff. left. apply Z.leb_gt. exact Hneg. }
    now rewrite Hg.
  - rewrite !transformed_fold by lia. do 3 f_equal.
    destruct A as [am aM], B as [bm bM]. cbn [min max] in *. subst bm.
    assert (Hc : (dim = 0 \/ dim = 1 \/ dim = 2 \/ dim = 3)%Z) by lia.
    destruct Hc as [-> | [-> | [-> | ->]]];
      match goal with
      | |- firstn (Z.to_nat ?e) _ = _ =>
          let n := eval compute in (Z.to_nat e) in
          change (Z.to_nat e) with n
      end;
      cbn [corners firstn min max];
      rewrite ?Hx, ?Hy, ?Hz; reflexivity.
Qed.

Lemma transformed_ignores_max_w_witness :
  transformed Samples.unit_box mat_identity 3
  = transformed (mkBBox (vec4f_splat zero) (mkvec4f one one one (of_Z 7)))
                mat_identity 3.
Proof.
  apply transformed_ignores_max_w; [lia | reflexivity ..].
Defined.

(** ** The byte-level accessors *)

(** X9.  The attribute stride is a whole number of vertex strides: with
    [extraAttributes] a 32-bit count, [getVertexAttributeSize] is
    [getVertexSize] times (1 + [extraAttributes]), that is 8 bytes per
    attribute with fp16 and 16 without, and it is never zero. *)
Theorem getVertexAttributeSize_stride (s : CadScene.t) :
  (extraAttributes (m_cfg s) < 2 ^ 32)%N ->
  getVertexAttributeSize s
  = (getVertexSize s * (1 + extraAttributes (m_cfg s)))%N /\
  getVertexAttributeSize s
  = ((if fp16 (m_cfg s) then 8 else 16) * (1 + extraAttributes (m_cfg s)))%N /\
  (0 < getVertexAttributeSize s)%N.
Proof.
  intros He. unfold getVertexAttributeSize, getVertexSize.
  change (Layout.sizeof Layout.VertexAttributesFP16) with 8%N.
  change (Layout.sizeof Layout.VertexAttributes) with 16%N.
  change (Layout.sizeof Layout.VertexFP16) with 8%N.
  change (Layout.sizeof Layout.Vertex) with 16%N.
  change (Layout.sizeof Layout.half) with 2%N.
  change (Layout.sizeof Layout.TFloat) with 4%N.
  change (2 ^ 32)%N with 4294967296%N in He.
  destruct (fp16 (m_cfg s)); rewrite N.mod_small;
    change (2 ^ 64)%N with 18446744073709551616%N; lia.
Qed.

Lemma getVertexAttributeSize_stride_witness :
  getVertexAttributeSize (Samples.scene_with Samples.extra_cfg) = 64%N.
Proof.
  destruct (getVertexAttributeSize_stride (Samples.scene_with Samples.extra_cfg))
    as (_ & H & _); [reflexivity | exact H].
Defined.

Lemma stride_slots (size data count i j : N) :
  (data < 2 ^ 64)%N -> (data + size * count <= 2 ^ 64)%N ->
  (i < j)%N -> (j < count)%N ->
  ((data + (size * 0) mod 2 ^ 64) mod 2 ^ 64 = data /\
   (data + (size * i) mod 2 ^ 64) mod 2 ^ 64 + size
   <= (data + (size * j) mod 2 ^ 64) mod 2 ^ 64 /\
   (data + (size * j) mod 2 ^ 64) mod 2 ^ 64 + size <= data + size * count)%N.
Proof.
  intros Hd Hb Hij Hjc.
  assert (Hj : (size * j + size <= size * count)%N) by nia.
  assert (Hi : (size * i + size <= size * j)%N) by nia.
  assert (Hpos : (0 < 2 ^ 64)%N) by reflexivity.
  destruct (N.eq_dec size 0) as [-> | Hs].
  - rewrite !N.mul_0_l, N.Div0.mod_0_l, N.add_0_r, N.mod_small by lia.
    repeat split; lia.
  - assert (Hjlt : (data + size * j < 2 ^ 64)%N) by lia.
    rewrite N.mul_0_r, N.Div0.mod_0_l, N.add_0_r.
    rewrite (N.mod_small data) by lia.
    rewrite (N.mod_small (size * i)) by lia.
    rewrite (N.mod_small (size * j)) by lia.
    rewrite (N.mod_small (data + size * i)) by lia.
    rewrite (N.mod_small (data + size * j)) by lia.
    repeat split; lia.
Qed.

(** X10.  In a buffer of [count] elements that lies inside the address
    space, [getVertex] and [getVertexAttribute] hand out slots that
    follow each other without overlap: index 0 is the start of the
    buffer, the slot of a smaller index ends at or before the slot of a
    larger one begins, and the last slot ends inside the buffer. *)
Theorem accessor_slots_disjoint (s : CadScene.t) (data count i j : N) :
  (data < 2 ^ 64)%N -> (i < j)%N -> (j < count)%N ->
  ((data + getVertexSize s * count <= 2 ^ 64)%N ->
   getVertex s data 0 = data /\
   (getVertex s data i + getVertexSize s <= getVertex s data j)%N /\
   (getVertex s data j + getVertexSize s
    <= data + getVertexSize s * count)%N) /\
  ((data + getVertexAttributeSize s * count <= 2 ^ 64)%N ->
   getVertexAttribute s data 0 = data /\
   (getVertexAttribute s data i + getVertexAttributeSize s
    <= getVertexAttribute s data j)%N /\
   (getVertexAttribute s data j + getVertexAttributeSize s
    <= data + getVertexAttributeSize s * count)%N).
Proof.
  intros Hd Hij Hjc. unfold getVertex, getVertexAttribute.
  split; intros Hb; now apply stride_slots.
Qed.

Lemma accessor_slots_disjoint_witness :
  (getVertex (Samples.scene_with LoadConfig_new) 4096 1 + 16
   <= getVertex (Samples.scene_with LoadConfig_new) 4096 2)%N /\
  (getVertexAttribute (Samples.scene_with Samples.extra_cfg) 4096 1 + 64
   <= getVertexAttribute (Samples.scene_with Samples.extra_cfg) 4096 2)%N.
Proof.
  split.
  - apply (accessor_slots_disjoint (Samples.scene_with LoadConfig_new)
             4096 3 1 2); vm_compute; congruence.
  - apply (accessor_slots_disjoint (Samples.scene_with Samples.extra_cfg)
             4096 3 1 2); vm_compute; congruence.
Defined.

(** ** [storeU64] *)

(** X11.  [storeU64] splits a 64-bit address without loss: both halves
    fit in 32 bits, and the low half plus 2^32 times the high half is
    the address again, so different addresses give different pairs. *)
Theorem storeU64_round_trip (address : N) :
  (ResourcesGL.x (ResourcesGL.storeU64 address) < 2 ^ 32)%N /\
  (ResourcesGL.y (ResourcesGL.storeU64 address) < 2 ^ 32)%N /\
  (ResourcesGL.x (ResourcesGL.storeU64 address)
   + 2 ^ 32 * ResourcesGL.y (ResourcesGL.storeU64 address)
   = address mod 2 ^ 64)%N /\
  ((address < 2 ^ 64)%N ->
   (ResourcesGL.x (ResourcesGL.storeU64 address)
    + 2 ^ 32 * ResourcesGL.y (ResourcesGL.storeU64 address) = address)%N /\
   forall other : N,
     (other < 2 ^ 64)%N ->
     ResourcesGL.storeU64 other = ResourcesGL.storeU64 address ->
     other = address).
Proof.
  assert (Hsplit : forall a : N,
             (ResourcesGL.x (ResourcesGL.storeU64 a)
              + 2 ^ 32 * ResourcesGL.y (ResourcesGL.storeU64 a)
              = a mod 2 ^ 64)%N).
  { intros a. unfold ResourcesGL.storeU64. cbn [ResourcesGL.x ResourcesGL.y].
    change 4294967295%N with (N.ones 32).
    rewrite N.land_ones, N.shiftr_div_pow2, N.Div0.mod_mod.
    change (2 ^ 64)%N with (2 ^ 32 * 2 ^ 32)%N.
    now rewrite N.Div0.mod_mul_r. }
  split; [| split; [| split]].
  - unfold ResourcesGL.storeU64. cbn [ResourcesGL.x]. now apply N.mod_lt.
  - unfold ResourcesGL.storeU64. cbn [ResourcesGL.y]. now apply N.mod_lt.
  - apply Hsplit.
  - intros Ha. split.
    + rewrite Hsplit. now apply N.mod_small.
    + intros other Ho Heq.
      rewrite <- (N.mod_small other (2 ^ 64)), <- (N.mod_small address (2 ^ 64))
        by assumption.
      now rewrite <- !Hsplit, Heq.
Qed.

Lemma storeU64_round_trip_witness :
  (ResourcesGL.x (ResourcesGL.storeU64 81985529216486895)
   + 2 ^ 32 * ResourcesGL.y (ResourcesGL.storeU64 81985529216486895)
   = 81985529216486895)%N.
Proof.
  destruct (storeU64_round_trip 81985529216486895) as (_ & _ & _ & H).
  destruct H as [H _]; [reflexivity | exact H].
Defined.

(** ** The destructors *)

(** X12.  [~Geometry] with [~MeshletTopology] releases exactly the
    buffers the geometry owns: on a heap whose live blocks are those
    buffers on top of the blocks [live0], the destructor leaves [live0]
    live, untouched, and hands back every byte the buffers took; and a
    geometry whose five pointers are null leaves any heap as it is. *)
Theorem Geometry_destroy_releases (g : Geometry.t) (h : Heap.t)
        (live0 : list (nat * N)) (avail0 : N) :
  (balanced live0 avail0 (geometry_blocks g) h ->
   Heap.live (Geometry_destroy g h) = live0 /\
   Heap.available (Geometry_destroy g h) = avail0 /\
   Heap.wf (Geometry_destroy g h)) /\
  (geometry_blocks g = [] -> Geometry_destroy g h = h).
Proof.
  rewrite Geometry_destroy_frees. split.
  - apply balanced_free_all.
  - intros ->. reflexivity.
Qed.

Lemma Geometry_destroy_releases_witness :
  Heap.live (Geometry_destroy Samples.three_buffers Samples.three_blocks)
  = [(3, 100%N)] /\
  Heap.available (Geometry_destroy Samples.three_buffers Samples.three_blocks)
  = 112%N.
Proof.
  destruct (Geometry_destroy_releases Samples.three_buffers Samples.three_blocks
              [(3, 100%N)] 112) as [H _].
  destruct H as (Hl & Ha & _); [| split; assumption].
  split.
  - split.
    + repeat constructor; simpl; intuition congruence.
    + repeat constructor.
  - exists [(0, 48%N); (1, 48%N); (2, 6%N)].
    split; [reflexivity |]. split; [apply Permutation_refl | reflexivity].
Defined.

(** ** The layout of the records shared with the GPU *)

(** X13.  None of the records that are copied to GPU buffers has
    compiler-inserted padding: in each of them every member starts where
    the one before it ends.  In [MatrixNode] the three pad floats and
    [winding] fill one 16-byte slot, so [color] starts at byte 240, and
    [DrawIndirectElements] is five consecutive 32-bit words. *)
Theorem gpu_records_packed :
  forallb Layout.packed
    [Layout.BBox; Layout.MaterialSide; Layout.Material; Layout.MatrixNode;
     Layout.Vertex; Layout.VertexAttributes; Layout.VertexFP16;
     Layout.VertexAttributesFP16; Layout.DrawIndirectElements] = true /\
  Layout.offsets Layout.MatrixNode = [0; 64; 128; 192; 208; 224; 236; 240]%N /\
  Layout.offsets Layout.Material = [0; 128]%N /\
  Layout.offsets Layout.DrawIndirectElements = [0; 4; 8; 12; 16]%N /\
  Layout.sizeof Layout.DrawIndirectElements = 20%N.
Proof.
  repeat split; vm_compute; reflexivity.
Qed.
